(** * Session layer of the confidant.ai native LLM engine

    A shallow embedding of [app/src/main/cpp/llama-jni.cpp]: the prompt
    cache record, the chunked prompt ingestion, the three sampling loops
    (blocking, cached, streaming) and the UTF-8 sanitising pass, together
    with the properties the design document states about them.

    llama.cpp itself is a collaborator: its entry points are the fields of
    the class [Backend], and everything below is proved for every
    instance of that class. *)

From Stdlib Require Import ZArith Ascii String List Bool Lia QArith.
From Equations Require Import Equations.
Import ListNotations.
Local Open Scope Z_scope.

Set Implicit Arguments.

(** ** Plain data *)

(** [llama_token] and [llama_pos] are [int32_t] in llama.h. *)
Definition llama_token := Z.
Definition llama_pos := Z.

(** [jfloat] values are only stored and handed on to the sampler. *)
Definition jfloat := Q.

(** A [jstring] argument as the native side sees it: [None] stands for
    [GetStringUTFChars] handing back [nullptr]. *)
Definition jstring := option string.

(** Raw bytes of a [std::string] / [char buf[256]]: values in [0, 256). *)
Definition bytes := list Z.

(** Two's-complement wrap of a 32-bit [int]. *)
Definition wrap32 (z : Z) : Z := (z + 2 ^ 31) mod 2 ^ 32 - 2 ^ 31.

(** Unary minus on [int], as in [-llama_tokenize(...)]. *)
Definition neg32 (z : Z) : Z := wrap32 (- z).

Record GenerationParams := {
  maxTokens : Z;
  temperature : jfloat;
  topK : Z;
  topP : jfloat;
  minP : jfloat;
  nThreads : Z;
  ctxSize : Z
}.

(** The member initialisers of [struct GenerationParams]. *)
Definition default_params : GenerationParams :=
  {| maxTokens := 256; temperature := 7 # 10; topK := 40; topP := 9 # 10;
     minP := 5 # 100; nThreads := 4; ctxSize := 2048 |}.

(** The fields of [llama_context_params] that [nativeLoadModel] sets. *)
Record llama_context_params := {
  n_ctx : Z;
  n_batch : Z;
  n_ubatch : Z;
  n_threads : Z;
  n_threads_batch : Z
}.

(** ** Decode state

    A [llama_context] as this file sees it.  [kv_cells] is the memory of
    sequence 0, the only sequence the engine uses: the token at index [p]
    is the one resident at position [p].  [impl] is the rest of the
    context (logits, scheduler, allocator), which only the backend reads. *)
Record llama_context (B : Type) := {
  cparams : llama_context_params;
  kv_cells : list llama_token;
  impl : B
}.

(** ** The llama.cpp interface *)

Class Backend := {
  llama_model : Type;
  llama_vocab : Type;
  backend_state : Type;
  llama_sampler : Type;
  (** [fopen(path, "rb") != nullptr] *)
  file_readable : string -> bool;
  llama_model_load_from_file : string -> option llama_model;
  llama_model_get_vocab : llama_model -> option llama_vocab;
  (** the backend part of a freshly created context, [None] for [nullptr] *)
  llama_init_from_model :
    llama_model -> llama_context_params -> option backend_state;
  (** [llama_tokenize vocab text n_tokens_max add_special parse_special]:
      the return code and the tokens written to the caller's buffer.  The
      vocab pointer is passed as stored, null or not. *)
  llama_tokenize :
    option llama_vocab -> string -> Z -> bool -> bool -> Z * list llama_token;
  llama_vocab_is_eog : option llama_vocab -> llama_token -> bool;
  (** [llama_token_to_piece vocab token buf 256 0 true]: the return code
      [n_chars] and the content of [buf] afterwards. *)
  llama_token_to_piece : option llama_vocab -> llama_token -> Z * bytes;
  (** What one [llama_decode] call does, given the backend part of the
      context, the resident cells and the batch: the return code, how
      many tokens of a failed batch stay in memory all the same, and the
      backend part afterwards. *)
  decode_status :
    backend_state -> list llama_token -> list llama_token ->
    Z * nat * backend_state;
  (** the chain top-k, top-p, temperature, dist(LLAMA_DEFAULT_SEED) *)
  llama_sampler_chain : Z -> jfloat -> jfloat -> llama_sampler;
  (** [llama_sampler_sample smpl ctx (-1)]: the token drawn and the
      sampler afterwards *)
  llama_sampler_sample :
    llama_sampler -> llama_context backend_state ->
    llama_token * llama_sampler
}.

(** ** UTF-8 sanitising pass

    The same scan closes [nativeGenerate] and [nativeGenerateWithCache]
    (over [response]) and runs once per token in
    [nativeGenerateStreaming] (over the first [n_chars] bytes of [buf]). *)

Definition byte_at (s : bytes) (i : nat) : Z := nth i s 0.

(** [(b & 0xC0) == 0x80] *)
Definition is_continuation (b : Z) : bool := Z.land b 0xC0 =? 0x80.

Equations? sanitize_from (response : bytes) (i : nat) (sanitized : bytes)
  : bytes by wf (List.length response - i)%nat lt :=
  sanitize_from response i sanitized with lt_dec i (List.length response) => {
    | right _ := sanitized;
    | left Hlt :=
        let c := byte_at response i in
        if c <=? 0x7F then
          sanitize_from response (i + 1) (sanitized ++ [c])
        else if (0xC0 <=? c) && (c <=? 0xDF)
                && (i + 1 <? List.length response)%nat
                && is_continuation (byte_at response (i + 1)) then
          sanitize_from response (i + 2)
            (sanitized ++ [c; byte_at response (i + 1)])
        else if (0xE0 <=? c) && (c <=? 0xEF)
                && (i + 2 <? List.length response)%nat
                && is_continuation (byte_at response (i + 1))
                && is_continuation (byte_at response (i + 2)) then
          sanitize_from response (i + 3)
            (sanitized ++ [c; byte_at response (i + 1);
                           byte_at response (i + 2)])
        else if (0xF0 <=? c) && (c <=? 0xF7)
                && (i + 3 <? List.length response)%nat
                && is_continuation (byte_at response (i + 1))
                && is_continuation (byte_at response (i + 2))
                && is_continuation (byte_at response (i + 3)) then
          sanitize_from response (i + 4)
            (sanitized ++ [c; byte_at response (i + 1);
                           byte_at response (i + 2);
                           byte_at response (i + 3)])
        else
          sanitize_from response (i + 1) sanitized }.
Proof. all: lia. Qed.

Definition sanitize_utf8 (response : bytes) : bytes :=
  sanitize_from response 0 [].

(** ** Replies and callback events *)

(** What a blocking entry point hands to [NewStringUTF]: one of the fixed
    ["Error: ..."] literals, or the sanitised response. *)
Inductive Reply :=
| ErrorReturn (msg : string)
| ResponseReturn (sanitized : bytes).

Definition bytes_of_string (s : string) : bytes :=
  map (fun a => Z.of_N (N_of_ascii a)) (list_ascii_of_string s).

(** The byte string whose [c_str()] goes to [NewStringUTF]: both kinds of
    reply travel through the same return value.  The Java string made
    from it ends at the first 0x00 of these bytes. *)
Definition reply_text (r : Reply) : bytes :=
  match r with
  | ErrorReturn msg => bytes_of_string msg
  | ResponseReturn sanitized => sanitized
  end.

(** One [CallVoidMethod] on the streaming callback object. *)
Inductive CallbackEvent :=
| OnToken (text : bytes)
| OnComplete
| OnError (msg : string).

(** The callback object: which of the three [GetMethodID] look-ups
    succeed on its class. *)
Record StreamCallback := {
  has_onToken : bool;
  has_onComplete : bool;
  has_onError : bool
}.

Definition is_terminal (e : CallbackEvent) : bool :=
  match e with
  | OnToken _ => false
  | OnComplete | OnError _ => true
  end.

Definition is_token (e : CallbackEvent) : bool := negb (is_terminal e).

Definition LF : string := String "010"%char EmptyString.

(** ** Loops with [break]

    How one pass through a loop body ends: at the closing brace or at a
    [break]. *)
Inductive LoopStep (St : Type) :=
| Continue (st : St)
| Break (st : St).

Arguments Continue {St} st.
Arguments Break {St} st.

(** [for (int i = 0; i < maxTokens; i++) body]: [remaining] is the number
    of values of [i] still below [maxTokens]. *)
Fixpoint for_loop {St : Type} (body : St -> LoopStep St) (remaining : nat)
    (st : St) : St :=
  match remaining with
  | O => st
  | S remaining' =>
      match body st with
      | Continue st' => for_loop body remaining' st'
      | Break st' => st'
      end
  end.

(** [reaches body n0 st0 n st]: the loop entered in state [st0] with [n0]
    passes allowed stands at the top of a pass in state [st] with [n]
    passes left. *)
Inductive reaches {St : Type} (body : St -> LoopStep St) (n0 : nat) (st0 : St)
  : nat -> St -> Prop :=
| reaches_start : reaches body n0 st0 n0 st0
| reaches_next (n : nat) (st st' : St) :
    reaches body n0 st0 (S n) st -> body st = Continue st' ->
    reaches body n0 st0 n st'.

Section Engine.

Context {BE : Backend}.

Definition context := llama_context backend_state.

(** ** llama.cpp memory and decode, on [kv_cells] *)

(** [llama_memory_seq_pos_max(mem, 0)]: [-1] when nothing is resident. *)
Definition llama_memory_seq_pos_max (ctx : context) : llama_pos :=
  Z.of_nat (List.length (kv_cells ctx)) - 1.

(** [llama_memory_seq_rm(mem, 0, p0, -1)]: drop every position [>= p0]. *)
Definition llama_memory_seq_rm (ctx : context) (p0 : llama_pos) : context :=
  {| cparams := cparams ctx;
     kv_cells := firstn (Z.to_nat p0) (kv_cells ctx);
     impl := impl ctx |}.

(** [llama_memory_clear(mem, false)] *)
Definition llama_memory_clear (ctx : context) : context :=
  {| cparams := cparams ctx; kv_cells := []; impl := impl ctx |}.

(** [llama_decode(ctx, llama_batch_get_one(tokens, n))]: the batch carries
    no positions, so its tokens go to the positions after the last
    resident one.  A call that fails leaves at most a leading part of the
    batch behind. *)
Definition llama_decode (ctx : context) (batch : list llama_token)
  : Z * context :=
  let '(rc, kept, impl') := decode_status (impl ctx) (kv_cells ctx) batch in
  (rc, {| cparams := cparams ctx;
          kv_cells :=
            kv_cells ctx ++ (if rc =? 0 then batch else firstn kept batch);
          impl := impl' |}).

(** ** Global state of llama-jni.cpp *)

Record Session := {
  g_model : option llama_model;
  g_context : option context;
  g_vocab : option llama_vocab;
  g_initialized : bool;
  g_cached_system_tokens : list llama_token;
  g_cached_system_length : Z;
  g_cached_system_prompt : string;
  g_params : GenerationParams
}.

(** The static initialisers. *)
Definition initial_session : Session :=
  {| g_model := None; g_context := None; g_vocab := None;
     g_initialized := false;
     g_cached_system_tokens := []; g_cached_system_length := 0;
     g_cached_system_prompt := EmptyString;
     g_params := default_params |}.

(** The context object behind [g_context] after the calls made on it. *)
Definition set_context (s : Session) (ctx : context) : Session :=
  {| g_model := g_model s; g_context := Some ctx; g_vocab := g_vocab s;
     g_initialized := g_initialized s;
     g_cached_system_tokens := g_cached_system_tokens s;
     g_cached_system_length := g_cached_system_length s;
     g_cached_system_prompt := g_cached_system_prompt s;
     g_params := g_params s |}.

(** The three assignments under "Cache the system prompt". *)
Definition set_cache (s : Session) (sys_tokens : list llama_token)
    (n_sys_tokens : Z) (current_sys_prompt : string) : Session :=
  {| g_model := g_model s; g_context := g_context s; g_vocab := g_vocab s;
     g_initialized := g_initialized s;
     g_cached_system_tokens := sys_tokens;
     g_cached_system_length := n_sys_tokens;
     g_cached_system_prompt := current_sys_prompt;
     g_params := g_params s |}.

(** The four handles with new values, the rest as it was. *)
Definition set_handles (s : Session) (model : option llama_model)
    (ctx : option context) (vocab : option llama_vocab) (initialized : bool)
  : Session :=
  {| g_model := model; g_context := ctx; g_vocab := vocab;
     g_initialized := initialized;
     g_cached_system_tokens := g_cached_system_tokens s;
     g_cached_system_length := g_cached_system_length s;
     g_cached_system_prompt := g_cached_system_prompt s;
     g_params := g_params s |}.

(** The guard [!g_initialized || g_model == nullptr || g_context == nullptr]
    read the other way round: the context to work on when it passes. *)
Definition loaded_context (s : Session) : option context :=
  match g_initialized s, g_model s, g_context s with
  | true, Some _, Some ctx => Some ctx
  | _, _, _ => None
  end.

(** ** Tokenising a text

    Two calls, as everywhere in the file: the first with an empty buffer
    for the count, the second into a [std::vector<llama_token>] of that
    size.  Both failures lead to the same reply at every call site. *)

(** The vector after the second call: [n] zeros overwritten from the
    front by what the tokenizer wrote. *)
Definition fill_buffer (n : Z) (written : list llama_token)
  : list llama_token :=
  firstn (Z.to_nat n) (written ++ repeat 0 (Z.to_nat n)).

Definition tokenize_text (vocab : option llama_vocab) (text : string)
    (add_special parse_special : bool) : option (Z * list llama_token) :=
  let n_tokens :=
    neg32 (fst (llama_tokenize vocab text 0 add_special parse_special)) in
  if n_tokens <=? 0 then None
  else
    let r := llama_tokenize vocab text n_tokens add_special parse_special in
    if fst r <? 0 then None
    else Some (n_tokens, fill_buffer n_tokens (snd r)).

(** ** Chunked ingestion

    [while (tokens_processed < n_tokens)] with chunks of at most
    [CHUNK_SIZE] tokens; the result is [false] with the context as the
    failed [llama_decode] left it, or [true] with everything ingested. *)

Definition CHUNK_SIZE : Z := 2048.

Equations? ingest_chunks (ctx : context) (tokens : list llama_token)
    (n_tokens tokens_processed : Z)
  : bool * context by wf (Z.to_nat (n_tokens - tokens_processed)) lt :=
  ingest_chunks ctx tokens n_tokens tokens_processed
    with Z_lt_dec tokens_processed n_tokens => {
    | right _ := (true, ctx);
    | left Hlt :=
        let chunk_size := Z.min CHUNK_SIZE (n_tokens - tokens_processed) in
        let chunk_batch :=
          firstn (Z.to_nat chunk_size)
                 (skipn (Z.to_nat tokens_processed) tokens) in
        let r := llama_decode ctx chunk_batch in
        if fst r =? 0 then
          ingest_chunks (snd r) tokens n_tokens
                        (tokens_processed + chunk_size)
        else (false, snd r) }.
Proof. subst chunk_size. unfold CHUNK_SIZE. lia. Qed.

(** ** The sampling loop of the two blocking entry points

    [for (int i = 0; i < maxTokens; i++)]: the same body in
    [nativeGenerate] and [nativeGenerateWithCache], up to logging. *)

Record GenState := {
  gen_smpl : llama_sampler;
  gen_ctx : context;
  response : bytes;
  n_generated : Z
}.

(** [if (n_chars > 0) response.append(buf, n_chars);] *)
Definition append_piece (vocab : option llama_vocab) (response : bytes)
    (new_token_id : llama_token) : bytes :=
  let piece := llama_token_to_piece vocab new_token_id in
  if 0 <? fst piece
  then response ++ firstn (Z.to_nat (fst piece)) (snd piece)
  else response.

Definition generation_step (vocab : option llama_vocab) (st : GenState)
  : LoopStep GenState :=
  let drawn := llama_sampler_sample (gen_smpl st) (gen_ctx st) in
  let new_token_id := fst drawn in
  if llama_vocab_is_eog vocab new_token_id then
    Break {| gen_smpl := snd drawn; gen_ctx := gen_ctx st;
             response := response st; n_generated := n_generated st |}
  else
    let r := llama_decode (gen_ctx st) [new_token_id] in
    let st' :=
      {| gen_smpl := snd drawn; gen_ctx := snd r;
         response := append_piece vocab (response st) new_token_id;
         n_generated := n_generated st + 1 |} in
    if fst r =? 0 then Continue st' else Break st'.

Definition generation_loop (remaining : nat) (vocab : option llama_vocab)
    (st : GenState) : GenState :=
  for_loop (generation_step vocab) remaining st.

(** The state in which the loop is entered: a fresh sampler chain, an
    empty [response]. *)
Definition initial_gen_state (s : Session) (ctx : context)
    (temperature : jfloat) : GenState :=
  {| gen_smpl :=
       llama_sampler_chain (topK (g_params s)) (topP (g_params s))
                           temperature;
     gen_ctx := ctx; response := []; n_generated := 0 |}.

(** Sampler set-up, loop, sanitising pass: the tail shared by the two
    blocking entry points once the prompt is ingested. *)
Definition generate_response (s : Session) (ctx : context) (maxTokens : Z)
    (temperature : jfloat) : Session * Reply :=
  let st :=
    generation_loop (Z.to_nat maxTokens) (g_vocab s)
                    (initial_gen_state s ctx temperature) in
  (set_context s (gen_ctx st), ResponseReturn (sanitize_utf8 (response st))).

(** ** The sampling loop of the streaming entry point *)

Record StreamState := {
  str_smpl : llama_sampler;
  str_ctx : context;
  delivered : list CallbackEvent;
  str_generated : Z
}.

(** [if (n_chars > 0)]: sanitise the first [n_chars] bytes of [buf] and
    hand them to [onToken]. *)
Definition deliver_piece (vocab : option llama_vocab)
    (delivered : list CallbackEvent) (new_token_id : llama_token)
  : list CallbackEvent :=
  let piece := llama_token_to_piece vocab new_token_id in
  if 0 <? fst piece
  then delivered
       ++ [OnToken (sanitize_utf8 (firstn (Z.to_nat (fst piece)) (snd piece)))]
  else delivered.

Definition streaming_step (vocab : option llama_vocab) (st : StreamState)
  : LoopStep StreamState :=
  let drawn := llama_sampler_sample (str_smpl st) (str_ctx st) in
  let new_token_id := fst drawn in
  if llama_vocab_is_eog vocab new_token_id then
    Break {| str_smpl := snd drawn; str_ctx := str_ctx st;
             delivered := delivered st;
             str_generated := str_generated st |}
  else
    let r := llama_decode (str_ctx st) [new_token_id] in
    let st' :=
      {| str_smpl := snd drawn; str_ctx := snd r;
         delivered := deliver_piece vocab (delivered st) new_token_id;
         str_generated := str_generated st + 1 |} in
    if fst r =? 0 then Continue st' else Break st'.

Definition streaming_loop (remaining : nat) (vocab : option llama_vocab)
    (st : StreamState) : StreamState :=
  for_loop (streaming_step vocab) remaining st.

Definition initial_stream_state (s : Session) (ctx : context)
    (temperature : jfloat) : StreamState :=
  {| str_smpl :=
       llama_sampler_chain (topK (g_params s)) (topP (g_params s))
                           temperature;
     str_ctx := ctx; delivered := []; str_generated := 0 |}.

(** Sampler set-up, loop, completion callback: the tail of the streaming
    entry point once the prompt is ingested. *)
Definition stream_tokens (s : Session) (ctx : context) (maxTokens : Z)
    (temperature : jfloat) : Session * list CallbackEvent :=
  let st :=
    streaming_loop (Z.to_nat maxTokens) (g_vocab s)
                   (initial_stream_state s ctx temperature) in
  (set_context s (str_ctx st), delivered st ++ [OnComplete]).

(** ** Entry points *)

(** [nativeLoadModel]
    ([Java_com_confidant_ai_engine_LLMEngine_nativeLoadModel]). *)
Definition nativeLoadModel (s : Session) (modelPath : jstring)
    (nThreads ctxSize : Z) (temperature : jfloat) (topK : Z)
    (topP minP : jfloat) : Session * bool :=
  (* Free existing model if loaded *)
  let s0 := if g_initialized s then set_handles s None None None false
            else s in
  match modelPath with
  | None => (s0, false)
  | Some path =>
      if negb (file_readable path) then (s0, false)
      else
        match llama_model_load_from_file path with
        | None =>
            (set_handles s0 None (g_context s0) (g_vocab s0)
                         (g_initialized s0), false)
        | Some model =>
            match llama_model_get_vocab model with
            | None =>
                (set_handles s0 None (g_context s0) None (g_initialized s0),
                 false)
            | Some vocab =>
                let ctx_params :=
                  {| n_ctx := Z.max ctxSize 4096; n_batch := 2048;
                     n_ubatch := 2048; n_threads := nThreads;
                     n_threads_batch := nThreads |} in
                match llama_init_from_model model ctx_params with
                | None =>
                    (set_handles s0 None None None (g_initialized s0), false)
                | Some b =>
                    ({| g_model := Some model;
                        g_context :=
                          Some {| cparams := ctx_params; kv_cells := [];
                                  impl := b |};
                        g_vocab := Some vocab;
                        g_initialized := true;
                        g_cached_system_tokens := g_cached_system_tokens s0;
                        g_cached_system_length := g_cached_system_length s0;
                        g_cached_system_prompt := g_cached_system_prompt s0;
                        g_params :=
                          {| maxTokens := maxTokens (g_params s0);
                             temperature := temperature; topK := topK;
                             topP := topP; minP := minP;
                             nThreads := nThreads; ctxSize := ctxSize |} |},
                     true)
                end
            end
        end
  end.

(** [nativeFreeModel] *)
Definition nativeFreeModel (s : Session) : Session :=
  {| g_model := None; g_context := None; g_vocab := None;
     g_initialized := false;
     (* Clear prompt cache *)
     g_cached_system_tokens := []; g_cached_system_length := 0;
     g_cached_system_prompt := EmptyString;
     g_params := g_params s |}.

(** [nativeGenerate] *)
Definition nativeGenerate (s : Session) (prompt : jstring) (maxTokens : Z)
    (temperature : jfloat) : Session * Reply :=
  match loaded_context s with
  | None => (s, ErrorReturn "Error: Model not loaded")
  | Some ctx =>
      match prompt with
      | None => (s, ErrorReturn "Error: Invalid prompt")
      | Some promptStr =>
          match tokenize_text (g_vocab s) promptStr true true with
          | None => (s, ErrorReturn "Error: Tokenization failed")
          | Some (n_tokens, tokens) =>
              let r := ingest_chunks ctx tokens n_tokens 0 in
              if fst r then generate_response s (snd r) maxTokens temperature
              else (set_context s (snd r),
                    ErrorReturn "Error: Prompt processing failed")
          end
      end
  end.

(** The cache test of [nativeGenerateWithCache]. *)
Definition cache_hit (s : Session) (current_sys_prompt : string) : bool :=
  String.eqb current_sys_prompt (g_cached_system_prompt s)
  && (0 <? g_cached_system_length s).

(** The [if (cache_hit)] branch: drop what follows the system prompt. *)
Definition reuse_system_prompt (s : Session) (ctx : context) : context :=
  let max_pos := llama_memory_seq_pos_max ctx in
  if g_cached_system_length s <=? max_pos
  then llama_memory_seq_rm ctx (g_cached_system_length s)
  else ctx.

Definition format_system_prompt (sysStr : string) : string :=
  ("<|startoftext|><|im_start|>system" ++ LF ++ sysStr
   ++ "<|im_end|>" ++ LF)%string.

Definition format_user_prompt (userStr : string) : string :=
  ("<|im_start|>user" ++ LF ++ userStr ++ "<|im_end|>" ++ LF
   ++ "<|im_start|>assistant" ++ LF)%string.

(** How the system-prompt part of [nativeGenerateWithCache] ends: with an
    early [return], or with the context to go on with and
    [sys_tokens_processed]. *)
Inductive PrefixResult :=
| PrefixFailed (s : Session) (msg : string)
| PrefixReady (s : Session) (ctx : context) (sys_tokens_processed : Z).

(** The [else] branch: clear, tokenize, ingest in chunks, cache. *)
Definition process_system_prompt (s : Session) (ctx : context)
    (sysStr : string) : PrefixResult :=
  let ctx0 := llama_memory_clear ctx in
  match tokenize_text (g_vocab s) (format_system_prompt sysStr) true true with
  | None =>
      PrefixFailed (set_context s ctx0)
                   "Error: System prompt tokenization failed"
  | Some (n_sys_tokens, sys_tokens) =>
      let r := ingest_chunks ctx0 sys_tokens n_sys_tokens 0 in
      if fst r then
        PrefixReady
          (set_cache (set_context s (snd r)) sys_tokens n_sys_tokens sysStr)
          (snd r) n_sys_tokens
      else
        PrefixFailed (set_context s (snd r))
                     "Error: System prompt processing failed"
  end.

Definition resolve_system_prompt (s : Session) (ctx : context)
    (sysStr : string) : PrefixResult :=
  if cache_hit s sysStr then
    let ctx' := reuse_system_prompt s ctx in
    PrefixReady (set_context s ctx') ctx' (g_cached_system_length s)
  else process_system_prompt s ctx sysStr.

(** [nativeGenerateWithCache] *)
Definition nativeGenerateWithCache (s : Session)
    (systemPrompt userMessage : jstring) (maxTokens : Z)
    (temperature : jfloat) : Session * Reply :=
  match loaded_context s with
  | None => (s, ErrorReturn "Error: Model not loaded")
  | Some ctx =>
      match systemPrompt, userMessage with
      | Some sysStr, Some userStr =>
          match resolve_system_prompt s ctx sysStr with
          | PrefixFailed s1 msg => (s1, ErrorReturn msg)
          | PrefixReady s1 ctx1 _ =>
              match tokenize_text (g_vocab s1) (format_user_prompt userStr)
                                  false false with
              | None =>
                  (s1, ErrorReturn "Error: User message tokenization failed")
              | Some (n_user_tokens, user_tokens) =>
                  let r := ingest_chunks ctx1 user_tokens n_user_tokens 0 in
                  if fst r then
                    generate_response s1 (snd r) maxTokens temperature
                  else
                    (set_context s1 (snd r),
                     ErrorReturn "Error: User message processing failed")
              end
          end
      | _, _ => (s, ErrorReturn "Error: Invalid prompt")
      end
  end.

(** [nativeGenerateStreaming]: the state afterwards and the calls made on
    the callback object, in order. *)
Definition nativeGenerateStreaming (s : Session) (prompt : jstring)
    (maxTokens : Z) (temperature : jfloat) (callback : StreamCallback)
  : Session * list CallbackEvent :=
  match loaded_context s with
  | None =>
      (* no null test on the method here: the call goes through when the
         look-up found it *)
      (s, if has_onError callback then [OnError "Model not loaded"] else [])
  | Some ctx =>
      if negb (has_onToken callback) || negb (has_onComplete callback)
         || negb (has_onError callback)
      then (s, [])
      else
        match prompt with
        | None => (s, [OnError "Invalid prompt"])
        | Some promptStr =>
            match tokenize_text (g_vocab s) promptStr true true with
            | None => (s, [OnError "Tokenization failed"])
            | Some (n_tokens, tokens) =>
                let r := ingest_chunks ctx tokens n_tokens 0 in
                if fst r then stream_tokens s (snd r) maxTokens temperature
                else
                  (set_context s (snd r), [OnError "Prompt processing failed"])
            end
        end
  end.

(** [nativeGetTokenCount].  The fallback [static_cast<int>(len / 4.0)] is
    the integer quotient: a length is exact as a [double] and so is its
    division by four.  [None] stands for the calls the C++ gives no
    meaning to: [strlen] on the null pointer of an unreadable [text], and
    the fallback of the loaded branch, which reads [str] after
    [ReleaseStringUTFChars]. *)
Definition nativeGetTokenCount (s : Session) (text : jstring) : option Z :=
  if negb (g_initialized s)
     || (match g_vocab s with Some _ => false | None => true end)
  then
    match text with
    | None => None
    | Some str => Some (Z.of_nat (String.length str) / 4)
    end
  else
    match text with
    | None => None
    | Some str =>
        let n_tokens :=
          neg32 (fst (llama_tokenize (g_vocab s) str 0 false false)) in
        if 0 <? n_tokens then Some n_tokens else None
    end.

End Engine.

(** ** Vocabulary of the statements *)

(** The sanitising scan told on the bytes still to be read instead of on
    an index: [sanitize_from_suffix] below shows it is the same scan. *)
Fixpoint sanitize_suffix (s : bytes) : bytes :=
  match s with
  | [] => []
  | c :: t =>
      if c <=? 0x7F then c :: sanitize_suffix t
      else
        match t with
        | [] => sanitize_suffix t
        | b1 :: t1 =>
            if (0xC0 <=? c) && (c <=? 0xDF) && is_continuation b1
            then c :: b1 :: sanitize_suffix t1
            else
              match t1 with
              | [] => sanitize_suffix t
              | b2 :: t2 =>
                  if (0xE0 <=? c) && (c <=? 0xEF) && is_continuation b1
                     && is_continuation b2
                  then c :: b1 :: b2 :: sanitize_suffix t2
                  else
                    match t2 with
                    | [] => sanitize_suffix t
                    | b3 :: t3 =>
                        if (0xF0 <=? c) && (c <=? 0xF7) && is_continuation b1
                           && is_continuation b2 && is_continuation b3
                        then c :: b1 :: b2 :: b3 :: sanitize_suffix t3
                        else sanitize_suffix t
                    end
              end
        end
  end.

Definition in_range (lo hi b : Z) : bool := (lo <=? b) && (b <=? hi).

(** The bytes of one code point in well-formed UTF-8 (Unicode, table 3-7:
    no overlong forms, no surrogates, nothing above U+10FFFF). *)
Definition utf8_scalar (cp : bytes) : bool :=
  match cp with
  | [b0] => in_range 0x00 0x7F b0
  | [b0; b1] => in_range 0xC2 0xDF b0 && in_range 0x80 0xBF b1
  | [b0; b1; b2] =>
      ((b0 =? 0xE0) && in_range 0xA0 0xBF b1
       || in_range 0xE1 0xEC b0 && in_range 0x80 0xBF b1
       || (b0 =? 0xED) && in_range 0x80 0x9F b1
       || in_range 0xEE 0xEF b0 && in_range 0x80 0xBF b1)
      && in_range 0x80 0xBF b2
  | [b0; b1; b2; b3] =>
      ((b0 =? 0xF0) && in_range 0x90 0xBF b1
       || in_range 0xF1 0xF3 b0 && in_range 0x80 0xBF b1
       || (b0 =? 0xF4) && in_range 0x80 0x8F b1)
      && in_range 0x80 0xBF b2 && in_range 0x80 0xBF b3
  | _ => false
  end.

(** A complete well-formed UTF-8 text: code points one after another. *)
Inductive well_formed_utf8 : bytes -> Prop :=
| wf_utf8_nil : well_formed_utf8 []
| wf_utf8_app (cp rest : bytes) :
    utf8_scalar cp = true -> well_formed_utf8 rest ->
    well_formed_utf8 (cp ++ rest).

(** [l1] is [l2] with some elements left out, the others in place. *)
Inductive subsequence {A : Type} : list A -> list A -> Prop :=
| subsequence_nil : subsequence [] []
| subsequence_keep (x : A) (l1 l2 : list A) :
    subsequence l1 l2 -> subsequence (x :: l1) (x :: l2)
| subsequence_drop (x : A) (l1 l2 : list A) :
    subsequence l1 l2 -> subsequence l1 (x :: l2).

Section EngineVocabulary.

Context {BE : Backend}.

(** The invariant the design document puts on the decode state: when the
    record claims [N > 0] cached system tokens, a context is there and
    its positions [0 .. N-1] hold the [N] tokens of the record. *)
Definition prefix_cache_coherent (s : Session) : Prop :=
  0 < g_cached_system_length s ->
  exists ctx,
    g_context s = Some ctx
    /\ Z.of_nat (List.length (g_cached_system_tokens s))
       = g_cached_system_length s
    /\ firstn (Z.to_nat (g_cached_system_length s)) (kv_cells ctx)
       = g_cached_system_tokens s.

(** The prompt cache record: text, tokens, count. *)
Definition cache_record (s : Session) : string * list llama_token * Z :=
  (g_cached_system_prompt s, g_cached_system_tokens s,
   g_cached_system_length s).

End EngineVocabulary.

(** The streaming contract on the calls one invocation makes: token
    deliveries only, then exactly one of [onComplete] and [onError]. *)
Definition tokens_then_one_terminal (events : list CallbackEvent) : Prop :=
  exists tokens last,
    events = tokens ++ [last]
    /\ forallb is_token tokens = true
    /\ is_terminal last = true.

Section ChunkVocabulary.

Context {BE : Backend}.

(** The four handles move together: all set while [g_initialized], all
    null otherwise. *)
Definition handles_consistent (s : Session) : Prop :=
  if g_initialized s
  then g_model s <> None /\ g_context s <> None /\ g_vocab s <> None
  else g_model s = None /\ g_context s = None /\ g_vocab s = None.

(** Batches decoded one after the other, stopping at the first that
    fails: what chunked ingestion is meant to be. *)
Fixpoint decode_all (ctx : context) (batches : list (list llama_token))
  : bool * context :=
  match batches with
  | [] => (true, ctx)
  | batch :: rest =>
      let r := llama_decode ctx batch in
      if fst r =? 0 then decode_all (snd r) rest else (false, snd r)
  end.

(** The bytes [llama_token_to_piece] wrote for a token: the first
    [n_chars] of [buf]. *)
Definition token_piece (vocab : option llama_vocab) (tok : llama_token)
  : bytes :=
  firstn (Z.to_nat (fst (llama_token_to_piece vocab tok)))
         (snd (llama_token_to_piece vocab tok)).

End ChunkVocabulary.

(** A token sequence cut into consecutive chunks of [CHUNK_SIZE] tokens,
    the last one possibly shorter; [fuel] bounds the number of chunks. *)
Fixpoint chunks (fuel : nat) (tokens : list llama_token)
  : list (list llama_token) :=
  match fuel, tokens with
  | O, _ => []
  | _, [] => []
  | S fuel', _ =>
      firstn (Z.to_nat CHUNK_SIZE) tokens
      :: chunks fuel' (skipn (Z.to_nat CHUNK_SIZE) tokens)
  end.

Definition chunk_list (tokens : list llama_token) : list (list llama_token) :=
  chunks (List.length tokens) tokens.

(** The texts handed to [onToken], in order. *)
Fixpoint token_texts (events : list CallbackEvent) : list bytes :=
  match events with
  | [] => []
  | OnToken text :: rest => text :: token_texts rest
  | _ :: rest => token_texts rest
  end.

(** The byte sequences the sanitising pass lets through: single bytes up
    to 0x7F and lead bytes followed by as many continuation bytes as the
    lead announces. *)
Inductive accepted_utf8 : bytes -> Prop :=
| accepted_nil : accepted_utf8 []
| accepted_1 (c : Z) (rest : bytes) :
    c <= 0x7F -> accepted_utf8 rest -> accepted_utf8 (c :: rest)
| accepted_2 (c b1 : Z) (rest : bytes) :
    0xC0 <= c <= 0xDF -> is_continuation b1 = true ->
    accepted_utf8 rest -> accepted_utf8 (c :: b1 :: rest)
| accepted_3 (c b1 b2 : Z) (rest : bytes) :
    0xE0 <= c <= 0xEF -> is_continuation b1 = true ->
    is_continuation b2 = true ->
    accepted_utf8 rest -> accepted_utf8 (c :: b1 :: b2 :: rest)
| accepted_4 (c b1 b2 b3 : Z) (rest : bytes) :
    0xF0 <= c <= 0xF7 -> is_continuation b1 = true ->
    is_continuation b2 = true -> is_continuation b3 = true ->
    accepted_utf8 rest -> accepted_utf8 (c :: b1 :: b2 :: b3 :: rest).

(** A callback whose text, if it carries one, has that structure. *)
Definition token_text_accepted (e : CallbackEvent) : Prop :=
  match e with
  | OnToken text => accepted_utf8 text
  | _ => True
  end.

(** ** The placeholder wrapper, llama-wrapper.cpp

    The text arguments are what [GetStringUTFChars] hands back, which the
    file uses without a null test; no allocation throws. *)
Module LlamaWrapper.

Record LlamaContext := {
  model_path : string;
  n_ctx : Z;
  n_threads : Z;
  temperature : jfloat;
  initialized : bool
}.

(** [static std::unique_ptr<LlamaContext> g_context] *)
Definition State := option LlamaContext.

Definition placeholder : string :=
  ("[LLM Response Placeholder - Integrate llama.cpp here]" ++ LF)%string.

(** [nativeInit] *)
Definition nativeInit (g_context : State) (path_str : string)
    (n_threads n_ctx : Z) (temperature : jfloat) : State * bool :=
  (Some {| model_path := path_str; n_ctx := n_ctx; n_threads := n_threads;
           temperature := temperature; initialized := true |},
   true).

(** [nativeGenerate] *)
Definition nativeGenerate (g_context : State) (prompt_str : string)
    (max_tokens : Z) : string :=
  match g_context with
  | Some c =>
      if initialized c
      then (placeholder ++ "Prompt: " ++ prompt_str)%string
      else EmptyString
  | None => EmptyString
  end.

(** [nativeRelease] *)
Definition nativeRelease (g_context : State) : State := None.

End LlamaWrapper.

(** ** A small backend to run the entry points on

    Bytes are their own tokens, token 1 opens a text and token 2 ends a
    generation; a model is the number of cells its context can hold, and
    a decode that would not fit fails with code 1 and leaves the memory
    as it was; the sampler counts down from top-k through the letters
    and then draws the end token. *)
Module Toy.

Definition tokenize (vocab : option unit) (text : string) (n_tokens_max : Z)
    (add_special parse_special : bool) : Z * list llama_token :=
  let toks := (if add_special then [1] else []) ++ bytes_of_string text in
  let n := Z.of_nat (List.length toks) in
  if n <=? n_tokens_max then (n, toks) else (- n, []).

Definition load_from_file (path : string) : option nat :=
  if String.eqb path "small.gguf" then Some 4%nat
  else if String.eqb path "medium.gguf" then Some 128%nat
  else if String.eqb path "model.gguf" then Some 4096%nat
  else None.

Definition decode (cells : nat) (resident batch : list llama_token)
  : Z * nat * nat :=
  if (List.length resident + List.length batch <=? cells)%nat
  then (0, 0%nat, cells)
  else (1, 0%nat, cells).

Definition sample (left : nat) (ctx : llama_context nat) : llama_token * nat :=
  match left with
  | O => (2, O)
  | S n => (0x61 + Z.of_nat n, n)
  end.

Definition backend : Backend :=
  {| llama_model := nat;
     llama_vocab := unit;
     backend_state := nat;
     llama_sampler := nat;
     file_readable := fun path => negb (String.eqb path EmptyString);
     llama_model_load_from_file := load_from_file;
     llama_model_get_vocab := fun _ => Some tt;
     llama_init_from_model := fun cells _ => Some cells;
     llama_tokenize := tokenize;
     llama_vocab_is_eog := fun _ tok => tok =? 2;
     llama_token_to_piece := fun _ tok => (1, [tok]);
     decode_status := decode;
     llama_sampler_chain := fun top_k _ _ => Z.to_nat top_k;
     llama_sampler_sample := sample |}.

(** [nativeLoadModel] with two threads, a 2048 context and top-k 3. *)
Definition load (s : @Session backend) (path : string)
  : @Session backend * bool :=
  @nativeLoadModel backend s (Some path) 2 2048 (7 # 10) 3 (9 # 10) (5 # 100).

(** A callback object with all three methods. *)
Definition full_callback : StreamCallback :=
  {| has_onToken := true; has_onComplete := true; has_onError := true |}.

(** A callback object whose class has no [onComplete]. *)
Definition callback_without_onComplete : StreamCallback :=
  {| has_onToken := true; has_onComplete := false; has_onError := true |}.

(** The large model loaded into a fresh process. *)
Definition loaded : @Session backend :=
  fst (load initial_session "model.gguf").

(** The small model loaded into a fresh process: four cells. *)
Definition loaded_small : @Session backend :=
  fst (load initial_session "small.gguf").

(** After a first cached turn on [loaded]. *)
Definition cached : @Session backend :=
  fst (@nativeGenerateWithCache backend loaded
         (Some "You are a calculator."%string) (Some "2+2="%string) 5 0%Q).

(** After loading the model once more on top of [cached]. *)
Definition reloaded : @Session backend :=
  fst (load cached "model.gguf").

(** After a first cached turn on the medium model: 128 cells, of which
    the turn takes 124. *)
Definition cached_medium : @Session backend :=
  fst (@nativeGenerateWithCache backend
         (fst (load initial_session "medium.gguf"))
         (Some "You are a calculator."%string) (Some "2+2="%string) 5 0%Q).

(** A system prompt of 100 characters: with its frame, 146 tokens. *)
Definition long_prompt : string :=
  string_of_list_ascii (repeat "x"%char 100).

(** After a cached turn with [long_prompt] on top of [cached_medium]. *)
Definition overflowed : @Session backend :=
  fst (@nativeGenerateWithCache backend cached_medium (Some long_prompt)
         (Some "2+2="%string) 5 0%Q).

(** The context behind [g_context], an empty one when the pointer is
    null. *)
Definition context_of (s : @Session backend) : llama_context nat :=
  match g_context s with
  | Some ctx => ctx
  | None =>
      {| cparams := {| n_ctx := 0; n_batch := 0; n_ubatch := 0;
                       n_threads := 0; n_threads_batch := 0 |};
         kv_cells := []; impl := 0%nat |}
  end.

(** The same backend with every piece a single byte below 0x80. *)
Definition ascii_backend : Backend :=
  {| llama_model := nat;
     llama_vocab := unit;
     backend_state := nat;
     llama_sampler := nat;
     file_readable := fun path => negb (String.eqb path EmptyString);
     llama_model_load_from_file := load_from_file;
     llama_model_get_vocab := fun _ => Some tt;
     llama_init_from_model := fun cells _ => Some cells;
     llama_tokenize := tokenize;
     llama_vocab_is_eog := fun _ tok => tok =? 2;
     llama_token_to_piece := fun _ tok => (1, [tok mod 128]);
     decode_status := decode;
     llama_sampler_chain := fun top_k _ _ => Z.to_nat top_k;
     llama_sampler_sample := sample |}.

(** The large model loaded into a fresh process on [ascii_backend]. *)
Definition loaded_ascii : @Session ascii_backend :=
  fst (@nativeLoadModel ascii_backend initial_session
         (Some "model.gguf"%string) 2 2048 (7 # 10) 3 (9 # 10) (5 # 100)).

(** The large model loaded with top-k 96: the sampler starts at byte 0xC0
    and goes on with 0xBF. *)
Definition loaded_wide : @Session backend :=
  fst (@nativeLoadModel backend initial_session
         (Some "model.gguf"%string) 2 2048 (7 # 10) 96 (9 # 10) (5 # 100)).

End Toy.

(** * Properties *)

(** ** The sanitising pass *)

Lemma sanitize_from_body (r : bytes) (i : nat) (acc : bytes) :
  sanitize_from r i acc =
  if (i <? List.length r)%nat then
    let c := byte_at r i in
    if c <=? 0x7F then sanitize_from r (i + 1) (acc ++ [c])
    else if (0xC0 <=? c) && (c <=? 0xDF) && (i + 1 <? List.length r)%nat
            && is_continuation (byte_at r (i + 1)) then
      sanitize_from r (i + 2) (acc ++ [c; byte_at r (i + 1)])
    else if (0xE0 <=? c) && (c <=? 0xEF) && (i + 2 <? List.length r)%nat
            && is_continuation (byte_at r (i + 1))
            && is_continuation (byte_at r (i + 2)) then
      sanitize_from r (i + 3)
        (acc ++ [c; byte_at r (i + 1); byte_at r (i + 2)])
    else if (0xF0 <=? c) && (c <=? 0xF7) && (i + 3 <? List.length r)%nat
            && is_continuation (byte_at r (i + 1))
            && is_continuation (byte_at r (i + 2))
            && is_continuation (byte_at r (i + 3)) then
      sanitize_from r (i + 4)
        (acc ++ [c; byte_at r (i + 1); byte_at r (i + 2); byte_at r (i + 3)])
    else sanitize_from r (i + 1) acc
  else acc.
Proof.
  rewrite sanitize_from_equation_1.
  destruct (lt_dec i (List.length r)) as [H | H]; simpl.
  - apply Nat.ltb_lt in H. rewrite H. reflexivity.
  - apply Nat.ltb_nlt in H. rewrite H. reflexivity.
Qed.

Lemma byte_at_skipn (r : bytes) (i k : nat) :
  byte_at r (i + k) = nth k (skipn i r) 0.
Proof.
  unfold byte_at. revert i. induction r as [| x r IH]; intros [| i]; simpl.
  - destruct k; reflexivity.
  - destruct k; reflexivity.
  - reflexivity.
  - apply IH.
Qed.

Lemma skipn_add (A : Type) (r : list A) (i k : nat) :
  skipn (i + k) r = skipn k (skipn i r).
Proof.
  revert i. induction r as [| x r IH]; intros [| i]; simpl;
    try reflexivity.
  - destruct k; reflexivity.
  - apply IH.
Qed.

(** The index scan from [i] appends to [acc] what the suffix scan makes of
    the bytes from [i] on. *)
Lemma sanitize_from_suffix (r : bytes) (i : nat) (acc : bytes) :
  sanitize_from r i acc = acc ++ sanitize_suffix (skipn i r).
Proof.
  remember (List.length r - i)%nat as n eqn:Hn.
  revert i acc Hn.
  induction n as [n IH] using lt_wf_ind; intros i acc Hn.
  rewrite sanitize_from_body.
  destruct (i <? List.length r)%nat eqn:Hi.
  2:{ apply Nat.ltb_ge in Hi. rewrite skipn_all2 by exact Hi.
      simpl. now rewrite app_nil_r. }
  apply Nat.ltb_lt in Hi.
  assert (Hrec : forall k a, (0 < k)%nat ->
            sanitize_from r (i + k) a
            = a ++ sanitize_suffix (skipn k (skipn i r))).
  { intros k a Hk. rewrite <- skipn_add.
    apply (IH (List.length r - (i + k))%nat); [lia | reflexivity]. }
  cbv zeta.
  rewrite !Hrec by lia.
  replace (byte_at r i) with (byte_at r (i + 0)) by (f_equal; lia).
  rewrite !byte_at_skipn.
  assert (Hlen : forall k, (i + k <? List.length r)%nat
                           = (k <? List.length (skipn i r))%nat).
  { intro k. rewrite length_skipn.
    destruct (i + k <? List.length r)%nat eqn:E1;
      destruct (k <? List.length r - i)%nat eqn:E2; try reflexivity.
    - apply Nat.ltb_lt in E1. apply Nat.ltb_ge in E2. lia.
    - apply Nat.ltb_ge in E1. apply Nat.ltb_lt in E2. lia. }
  rewrite !Hlen.
  assert (Hne : skipn i r <> []).
  { intro E. apply (f_equal (@List.length Z)) in E.
    rewrite length_skipn in E. simpl in E. lia. }
  clear Hlen Hrec IH Hn Hi.
  destruct (skipn i r) as [| c [| b1 [| b2 [| b3 t]]]];
    [congruence | | | |]; cbn [nth skipn List.length sanitize_suffix];
    repeat match goal with
           | |- context [(?a <? ?b)%nat] =>
               let v := eval compute in (a <? b)%nat in
               change (a <? b)%nat with v
           end;
    rewrite ?andb_false_r, ?andb_true_r;
    repeat match goal with
           | |- context [if ?b then _ else _] => destruct b; cbn [andb]
           end;
    rewrite <- ?app_assoc; reflexivity.
Qed.

Lemma sanitize_utf8_suffix (s : bytes) : sanitize_utf8 s = sanitize_suffix s.
Proof. unfold sanitize_utf8. now rewrite sanitize_from_suffix. Qed.

Lemma land_continuation (b : Z) : 0x80 <= b <= 0xBF -> Z.land b 0xC0 = 0x80.
Proof.
  intro H.
  assert (E : exists n, (n < 64)%nat /\ b = 0x80 + Z.of_nat n).
  { exists (Z.to_nat (b - 0x80)). split; lia. }
  destruct E as [n [Hn ->]].
  do 64 (destruct n as [| n]; [reflexivity |]).
  lia.
Qed.

Lemma is_continuation_range (b : Z) :
  0x80 <= b <= 0xBF -> is_continuation b = true.
Proof.
  intro H. unfold is_continuation. rewrite land_continuation by exact H.
  reflexivity.
Qed.

Lemma sanitize_suffix_cons (c : Z) (t : bytes) :
  sanitize_suffix (c :: t) =
  if c <=? 0x7F then c :: sanitize_suffix t
  else
    match t with
    | [] => sanitize_suffix t
    | b1 :: t1 =>
        if (0xC0 <=? c) && (c <=? 0xDF) && is_continuation b1
        then c :: b1 :: sanitize_suffix t1
        else
          match t1 with
          | [] => sanitize_suffix t
          | b2 :: t2 =>
              if (0xE0 <=? c) && (c <=? 0xEF) && is_continuation b1
                 && is_continuation b2
              then c :: b1 :: b2 :: sanitize_suffix t2
              else
                match t2 with
                | [] => sanitize_suffix t
                | b3 :: t3 =>
                    if (0xF0 <=? c) && (c <=? 0xF7) && is_continuation b1
                       && is_continuation b2 && is_continuation b3
                    then c :: b1 :: b2 :: b3 :: sanitize_suffix t3
                    else sanitize_suffix t
                end
          end
    end.
Proof. reflexivity. Qed.

(** Turns the boolean range tests among the hypotheses into inequalities. *)
Ltac ranges_to_prop :=
  unfold utf8_scalar, in_range in *;
  repeat match goal with
         | H : _ && _ = true |- _ => apply andb_true_iff in H; destruct H
         | H : _ || _ = true |- _ => apply orb_true_iff in H; destruct H
         | H : (_ <=? _) = true |- _ => apply Z.leb_le in H
         | H : (_ =? _) = true |- _ => apply Z.eqb_eq in H
         end.

(** Decides the byte tests of the scan from the inequalities at hand. *)
Ltac decide_tests :=
  repeat match goal with
         | |- context [is_continuation ?b] =>
             rewrite (@is_continuation_range b) by lia
         | |- context [?a <=? ?b] =>
             first [ rewrite (proj2 (Z.leb_le a b)) by lia
                   | rewrite (proj2 (Z.leb_gt a b)) by lia ]
         end;
  cbn [andb].

Lemma sanitize_suffix_scalar (cp rest : bytes) :
  utf8_scalar cp = true ->
  sanitize_suffix (cp ++ rest) = cp ++ sanitize_suffix rest.
Proof.
  intro H.
  destruct cp as [| b0 [| b1 [| b2 [| b3 [| b4 t]]]]];
    try discriminate H; cbn [app]; rewrite sanitize_suffix_cons;
    ranges_to_prop; subst; decide_tests; reflexivity.
Qed.

Lemma sanitize_suffix_well_formed (s tail : bytes) :
  well_formed_utf8 s ->
  sanitize_suffix (s ++ tail) = s ++ sanitize_suffix tail.
Proof.
  induction 1 as [| cp rest Hcp Hrest IH]; [reflexivity |].
  rewrite <- !app_assoc, sanitize_suffix_scalar by exact Hcp.
  now rewrite IH.
Qed.

(** A code point cut short leaves nothing behind. *)
Lemma sanitize_suffix_partial (cp : bytes) (j : nat) :
  utf8_scalar cp = true -> (j < List.length cp)%nat ->
  sanitize_suffix (firstn j cp) = [].
Proof.
  intros H Hj.
  destruct cp as [| b0 [| b1 [| b2 [| b3 [| b4 t]]]]];
    try discriminate H; cbn [List.length] in Hj;
    (destruct j as [| [| [| [| j]]]]; [| | | | lia]); try lia;
    cbn [firstn]; try reflexivity;
    ranges_to_prop; subst;
    repeat (rewrite sanitize_suffix_cons; decide_tests);
    reflexivity.
Qed.

Lemma sanitize_suffix_subsequence (s : bytes) :
  subsequence (sanitize_suffix s) s.
Proof.
  remember (List.length s) as n eqn:Hn.
  revert s Hn.
  induction n as [n IH] using lt_wf_ind; intros s Hn.
  destruct s as [| c t]; [constructor |].
  assert (Hsub : forall u, (List.length u <= List.length t)%nat ->
                           subsequence (sanitize_suffix u) u).
  { intros u Hu. apply (IH (List.length u)); [simpl in Hn; lia | reflexivity]. }
  rewrite sanitize_suffix_cons.
  pose proof (Hsub t (Nat.le_refl _)) as Ht.
  set (skipped := sanitize_suffix t) in *. clearbody skipped.
  destruct (c <=? 0x7F).
  { apply subsequence_keep. exact Ht. }
  destruct t as [| b1 [| b2 [| b3 t3]]];
    repeat match goal with
           | |- context [if ?b then _ else _] => destruct b
           end;
    try (apply subsequence_drop; exact Ht);
    repeat apply subsequence_keep; apply Hsub; simpl; lia.
Qed.

(** C9.  The sanitising pass is a function of its input that keeps the
    order of the bytes.  A complete well-formed UTF-8 text comes out as it
    went in; a well-formed text followed by a multi-byte code point that
    lost its last [k] bytes, [1 <= k <= 3], comes out as the text alone;
    and whatever the input, the output is the input with some bytes left
    out: none replaced, none moved. *)
Theorem sanitize_utf8_text_codec (text pre cp : bytes) (k : nat) :
  well_formed_utf8 text ->
  well_formed_utf8 pre ->
  utf8_scalar cp = true ->
  (1 < List.length cp)%nat ->
  (1 <= k <= 3)%nat ->
  (k <= List.length cp)%nat ->
  sanitize_utf8 text = text
  /\ sanitize_utf8 (pre ++ firstn (List.length cp - k) cp) = pre
  /\ (forall raw : bytes, subsequence (sanitize_utf8 raw) raw).
Proof.
  intros Htext Hpre Hcp Hmulti Hk Hle.
  repeat split.
  - rewrite sanitize_utf8_suffix.
    rewrite <- (app_nil_r text) at 1.
    rewrite sanitize_suffix_well_formed by exact Htext.
    simpl. apply app_nil_r.
  - rewrite sanitize_utf8_suffix.
    rewrite sanitize_suffix_well_formed by exact Hpre.
    rewrite sanitize_suffix_partial by (exact Hcp || lia).
    apply app_nil_r.
  - intro raw. rewrite sanitize_utf8_suffix.
    apply sanitize_suffix_subsequence.
Qed.

(** "Hé€" complete, and "Hé" followed by U+1F600 cut after two bytes. *)
Lemma sanitize_utf8_text_codec_witness :
  sanitize_utf8 [0x48; 0xC3; 0xA9; 0xE2; 0x82; 0xAC]
  = [0x48; 0xC3; 0xA9; 0xE2; 0x82; 0xAC]
  /\ sanitize_utf8 ([0x48; 0xC3; 0xA9] ++ [0xF0; 0x9F]) = [0x48; 0xC3; 0xA9].
Proof.
  assert (Hpre : well_formed_utf8 [0x48; 0xC3; 0xA9]).
  { apply (@wf_utf8_app [0x48] [0xC3; 0xA9]); [reflexivity |].
    apply (@wf_utf8_app [0xC3; 0xA9] []); [reflexivity | constructor]. }
  assert (Htext : well_formed_utf8 [0x48; 0xC3; 0xA9; 0xE2; 0x82; 0xAC]).
  { apply (@wf_utf8_app [0x48] [0xC3; 0xA9; 0xE2; 0x82; 0xAC]);
      [reflexivity |].
    apply (@wf_utf8_app [0xC3; 0xA9] [0xE2; 0x82; 0xAC]); [reflexivity |].
    apply (@wf_utf8_app [0xE2; 0x82; 0xAC] []); [reflexivity | constructor]. }
  destruct (@sanitize_utf8_text_codec
              [0x48; 0xC3; 0xA9; 0xE2; 0x82; 0xAC] [0x48; 0xC3; 0xA9]
              [0xF0; 0x9F; 0x98; 0x80] 2 Htext Hpre)
    as [H1 [H2 _]]; [reflexivity | simpl; lia | lia | simpl; lia |].
  split; [exact H1 | exact H2].
Defined.

(** ** Loops *)

Lemma reaches_for_loop (St : Type) (body : St -> LoopStep St)
    (n0 n : nat) (st0 st : St) :
  reaches body n0 st0 n st -> for_loop body n0 st0 = for_loop body n st.
Proof.
  induction 1 as [| n st st' Hreach IH Hstep]; [reflexivity |].
  rewrite IH. simpl. now rewrite Hstep.
Qed.

Lemma firstn_add_skipn (A : Type) (a k : nat) (l : list A) :
  firstn (a + k) l = firstn a l ++ firstn k (skipn a l).
Proof.
  revert l. induction a as [| a IH]; intro l; [reflexivity |].
  destruct l as [| x l]; simpl.
  - now rewrite firstn_nil.
  - now rewrite IH.
Qed.

Section EngineProperties.

Context {BE : Backend}.

(** ** Decode and chunked ingestion *)

Lemma llama_decode_cells (ctx : context) (batch : list llama_token) :
  kv_cells (snd (llama_decode ctx batch))
  = kv_cells ctx
    ++ (if fst (llama_decode ctx batch) =? 0 then batch
        else firstn (snd (fst (decode_status (impl ctx) (kv_cells ctx) batch)))
                    batch).
Proof.
  unfold llama_decode.
  destruct (decode_status (impl ctx) (kv_cells ctx) batch) as [[rc kept] b].
  reflexivity.
Qed.

Lemma llama_decode_ok (ctx : context) (batch : list llama_token) :
  fst (llama_decode ctx batch) = 0 ->
  kv_cells (snd (llama_decode ctx batch)) = kv_cells ctx ++ batch.
Proof. intro H. rewrite llama_decode_cells, H. reflexivity. Qed.

Lemma llama_decode_grows (ctx : context) (batch : list llama_token) :
  exists k, kv_cells (snd (llama_decode ctx batch))
            = kv_cells ctx ++ firstn k batch.
Proof.
  rewrite llama_decode_cells.
  destruct (fst (llama_decode ctx batch) =? 0).
  - exists (List.length batch). now rewrite firstn_all.
  - eexists. reflexivity.
Qed.

Lemma ingest_chunks_body (ctx : context) (tokens : list llama_token)
    (n_tokens tokens_processed : Z) :
  ingest_chunks ctx tokens n_tokens tokens_processed =
  if tokens_processed <? n_tokens then
    let chunk_size := Z.min CHUNK_SIZE (n_tokens - tokens_processed) in
    let chunk_batch :=
      firstn (Z.to_nat chunk_size)
             (skipn (Z.to_nat tokens_processed) tokens) in
    let r := llama_decode ctx chunk_batch in
    if fst r =? 0 then
      ingest_chunks (snd r) tokens n_tokens (tokens_processed + chunk_size)
    else (false, snd r)
  else (true, ctx).
Proof.
  rewrite ingest_chunks_equation_1.
  destruct (Z_lt_dec tokens_processed n_tokens) as [H | H]; simpl.
  - apply Z.ltb_lt in H. rewrite H. reflexivity.
  - apply Z.ltb_nlt in H. rewrite H. reflexivity.
Qed.

(** Chunking does not show in the decode state: a run that succeeds has
    appended the tokens from [tokens_processed] on, in order, and a run
    that fails has appended a leading part of them. *)
Lemma ingest_chunks_cells (ctx : context) (tokens : list llama_token)
    (n_tokens tokens_processed : Z) :
  0 <= tokens_processed ->
  n_tokens = Z.of_nat (List.length tokens) ->
  let r := ingest_chunks ctx tokens n_tokens tokens_processed in
  (fst r = true ->
   kv_cells (snd r)
   = kv_cells ctx ++ skipn (Z.to_nat tokens_processed) tokens)
  /\ exists k, kv_cells (snd r)
               = kv_cells ctx
                 ++ firstn k (skipn (Z.to_nat tokens_processed) tokens).
Proof.
  intros Hpos Hn.
  remember (Z.to_nat (n_tokens - tokens_processed)) as m eqn:Hm.
  revert ctx tokens_processed Hpos Hm.
  induction m as [m IH] using lt_wf_ind; intros ctx tp Hpos Hm.
  cbv zeta. rewrite ingest_chunks_body.
  destruct (tp <? n_tokens) eqn:Hlt.
  2:{ apply Z.ltb_ge in Hlt. cbn [fst snd].
      rewrite skipn_all2 by lia. rewrite app_nil_r.
      split; [reflexivity |]. exists 0%nat. now rewrite app_nil_r. }
  apply Z.ltb_lt in Hlt. cbv zeta.
  set (cs := Z.min CHUNK_SIZE (n_tokens - tp)).
  assert (Hcs : 0 < cs) by (unfold cs, CHUNK_SIZE; lia).
  set (rest := skipn (Z.to_nat tp) tokens).
  set (batch := firstn (Z.to_nat cs) rest).
  assert (Hrest : skipn (Z.to_nat (tp + cs)) tokens = skipn (Z.to_nat cs) rest).
  { unfold rest. rewrite <- skipn_add. f_equal. lia. }
  destruct (fst (llama_decode ctx batch) =? 0) eqn:Hrc.
  - apply Z.eqb_eq in Hrc.
    destruct (IH (Z.to_nat (n_tokens - (tp + cs))) ltac:(lia)
                 (snd (llama_decode ctx batch)) (tp + cs) ltac:(lia) eq_refl)
      as [Hok [k Hk]].
    rewrite llama_decode_ok in Hok, Hk by exact Hrc.
    rewrite Hrest in Hok, Hk.
    split.
    + intro Hr. rewrite (Hok Hr), <- app_assoc. f_equal.
      apply firstn_skipn.
    + exists (Z.to_nat cs + k)%nat.
      rewrite Hk, <- app_assoc. f_equal.
      symmetry. apply firstn_add_skipn.
  - cbn [fst snd]. split; [discriminate |].
    destruct (llama_decode_grows ctx batch) as [k Hk].
    exists (Nat.min k (Z.to_nat cs)).
    rewrite Hk. unfold batch. now rewrite firstn_firstn.
Qed.

Lemma ingest_chunks_grows (ctx : context) (tokens : list llama_token)
    (n_tokens tokens_processed : Z) :
  exists appended,
    kv_cells (snd (ingest_chunks ctx tokens n_tokens tokens_processed))
    = kv_cells ctx ++ appended.
Proof.
  remember (Z.to_nat (n_tokens - tokens_processed)) as m eqn:Hm.
  revert ctx tokens_processed Hm.
  induction m as [m IH] using lt_wf_ind; intros ctx tp Hm.
  rewrite ingest_chunks_body.
  destruct (tp <? n_tokens) eqn:Hlt.
  2:{ exists []. cbn [snd]. now rewrite app_nil_r. }
  apply Z.ltb_lt in Hlt. cbv zeta.
  set (cs := Z.min CHUNK_SIZE (n_tokens - tp)).
  assert (Hcs : 0 < cs) by (unfold cs, CHUNK_SIZE; lia).
  set (batch := firstn (Z.to_nat cs) (skipn (Z.to_nat tp) tokens)).
  destruct (llama_decode_grows ctx batch) as [k Hk].
  destruct (fst (llama_decode ctx batch) =? 0).
  - destruct (IH (Z.to_nat (n_tokens - (tp + cs))) ltac:(lia)
                 (snd (llama_decode ctx batch)) (tp + cs) eq_refl)
      as [appended Happ].
    exists (firstn k batch ++ appended).
    now rewrite Happ, Hk, app_assoc.
  - exists (firstn k batch). exact Hk.
Qed.

Lemma fill_buffer_length (n : Z) (written : list llama_token) :
  List.length (fill_buffer n written) = Z.to_nat n.
Proof.
  unfold fill_buffer. rewrite length_firstn, length_app, repeat_length. lia.
Qed.

Lemma tokenize_text_length (vocab : option llama_vocab) (text : string)
    (add_special parse_special : bool) (n : Z) (tokens : list llama_token) :
  tokenize_text vocab text add_special parse_special = Some (n, tokens) ->
  0 < n /\ Z.of_nat (List.length tokens) = n.
Proof.
  unfold tokenize_text.
  destruct (neg32 _ <=? 0) eqn:Hn; [discriminate |].
  destruct (fst _ <? 0); [discriminate |].
  intro H. injection H as <- <-. apply Z.leb_gt in Hn.
  rewrite fill_buffer_length. lia.
Qed.

(** ** The prompt cache decision *)

(** C2.  The cache test of [nativeGenerateWithCache] is a hit exactly when
    the incoming system prompt equals the stored text character for
    character and the stored token count is positive; once
    "You are helpful" is what the record holds, whatever the tokens and
    the count, "You are helpful " with a trailing space is a miss, and
    the call goes through the miss branch. *)
Theorem cache_hit_exact (s : Session) (sysStr : string) :
  (cache_hit s sysStr = true <->
   sysStr = g_cached_system_prompt s /\ 0 < g_cached_system_length s)
  /\ (forall (sys_tokens : list llama_token) (n_sys_tokens : Z) (ctx : context),
        let cached := set_cache s sys_tokens n_sys_tokens "You are helpful" in
        cache_hit cached "You are helpful " = false
        /\ resolve_system_prompt cached ctx "You are helpful "
           = process_system_prompt cached ctx "You are helpful ").
Proof.
  split.
  - unfold cache_hit. rewrite andb_true_iff, String.eqb_eq, Z.ltb_lt.
    reflexivity.
  - intros sys_tokens n_sys_tokens ctx cached.
    assert (H : cache_hit cached "You are helpful " = false) by reflexivity.
    split; [exact H |].
    unfold resolve_system_prompt. now rewrite H.
Qed.

Lemma set_context_cache (s : Session) (ctx : context) :
  cache_record (set_context s ctx) = cache_record s.
Proof. reflexivity. Qed.

(** The miss branch when it goes through: the tokens of the framed
    prompt are what is resident and what the record holds. *)
Lemma process_system_prompt_ready (s s1 : Session) (ctx ctx1 : context)
    (sysStr : string) (n_sys_tokens : Z) :
  process_system_prompt s ctx sysStr = PrefixReady s1 ctx1 n_sys_tokens ->
  exists sys_tokens,
    tokenize_text (g_vocab s) (format_system_prompt sysStr) true true
    = Some (n_sys_tokens, sys_tokens)
    /\ fst (ingest_chunks (llama_memory_clear ctx) sys_tokens
                          n_sys_tokens 0) = true
    /\ g_context s1 = Some ctx1
    /\ kv_cells ctx1 = sys_tokens
    /\ cache_record s1 = (sysStr, sys_tokens, n_sys_tokens)
    /\ Z.of_nat (List.length (kv_cells ctx1)) = n_sys_tokens.
Proof.
  unfold process_system_prompt.
  destruct (tokenize_text (g_vocab s) (format_system_prompt sysStr) true true)
    as [[n sys_tokens] |] eqn:Htok; [| discriminate].
  destruct (tokenize_text_length _ _ _ _ Htok) as [Hpos Hlen].
  destruct (@ingest_chunks_cells (llama_memory_clear ctx) sys_tokens n 0
              ltac:(lia) (eq_sym Hlen)) as [Hok _].
  cbn [Z.to_nat skipn llama_memory_clear kv_cells app] in Hok.
  destruct (fst (ingest_chunks (llama_memory_clear ctx) sys_tokens n 0))
    eqn:Hfst; [| discriminate].
  intro H. injection H as <- <- <-.
  exists sys_tokens. cbn [snd]. rewrite (Hok eq_refl).
  repeat split; first [reflexivity | assumption].
Qed.

(** ** The hit branch *)

(** What the hit branch does to the decode state: positions from the
    cached count on are dropped, so that the lesser of the cached count
    and the number of positions resident before stays. *)
Lemma cache_hit_truncates (s : Session) (ctx : context) (sysStr : string) :
  cache_hit s sysStr = true ->
  exists ctx',
    resolve_system_prompt s ctx sysStr
    = PrefixReady (set_context s ctx') ctx' (g_cached_system_length s)
    /\ kv_cells ctx'
       = firstn (Z.to_nat (g_cached_system_length s)) (kv_cells ctx)
    /\ Z.of_nat (List.length (kv_cells ctx'))
       = Z.min (g_cached_system_length s)
               (Z.of_nat (List.length (kv_cells ctx))).
Proof.
  intro Hhit. unfold resolve_system_prompt. rewrite Hhit.
  exists (reuse_system_prompt s ctx). split; [reflexivity |].
  apply andb_true_iff in Hhit. destruct Hhit as [_ Hpos].
  apply Z.ltb_lt in Hpos.
  unfold reuse_system_prompt, llama_memory_seq_pos_max.
  destruct (g_cached_system_length s <=? _) eqn:E.
  - apply Z.leb_le in E. cbn [llama_memory_seq_rm kv_cells].
    split; [reflexivity |]. rewrite length_firstn. lia.
  - apply Z.leb_gt in E. split.
    + rewrite firstn_all2 by lia. reflexivity.
    + lia.
Qed.

(** ** The sampling loops *)

Lemma generation_step_cases (vocab : option llama_vocab) (st : GenState) :
  generation_step vocab st =
  let tok := fst (llama_sampler_sample (gen_smpl st) (gen_ctx st)) in
  let st' :=
    {| gen_smpl := snd (llama_sampler_sample (gen_smpl st) (gen_ctx st));
       gen_ctx := snd (llama_decode (gen_ctx st) [tok]);
       response := append_piece vocab (response st) tok;
       n_generated := n_generated st + 1 |} in
  if llama_vocab_is_eog vocab tok then
    Break {| gen_smpl := snd (llama_sampler_sample (gen_smpl st) (gen_ctx st));
             gen_ctx := gen_ctx st; response := response st;
             n_generated := n_generated st |}
  else if fst (llama_decode (gen_ctx st) [tok]) =? 0 then Continue st'
  else Break st'.
Proof. reflexivity. Qed.

Lemma streaming_step_cases (vocab : option llama_vocab) (st : StreamState) :
  streaming_step vocab st =
  let tok := fst (llama_sampler_sample (str_smpl st) (str_ctx st)) in
  let st' :=
    {| str_smpl := snd (llama_sampler_sample (str_smpl st) (str_ctx st));
       str_ctx := snd (llama_decode (str_ctx st) [tok]);
       delivered := deliver_piece vocab (delivered st) tok;
       str_generated := str_generated st + 1 |} in
  if llama_vocab_is_eog vocab tok then
    Break {| str_smpl := snd (llama_sampler_sample (str_smpl st) (str_ctx st));
             str_ctx := str_ctx st; delivered := delivered st;
             str_generated := str_generated st |}
  else if fst (llama_decode (str_ctx st) [tok]) =? 0 then Continue st'
  else Break st'.
Proof. reflexivity. Qed.

(** What a run of the blocking loop amounts to: some tokens, none of them
    an end token and no more than the passes allowed, whose pieces were
    appended to [response] in order, which [n_generated] counts, and of
    which a leading part (all of them unless the last decode failed) was
    appended to the decode state. *)
Lemma generation_loop_trace (vocab : option llama_vocab) (n : nat)
    (st0 : GenState) :
  exists (toks : list llama_token) (k : nat),
    (List.length toks <= n)%nat
    /\ Forall (fun tok => llama_vocab_is_eog vocab tok = false) toks
    /\ response (generation_loop n vocab st0)
       = fold_left (append_piece vocab) toks (response st0)
    /\ n_generated (generation_loop n vocab st0)
       = n_generated st0 + Z.of_nat (List.length toks)
    /\ kv_cells (gen_ctx (generation_loop n vocab st0))
       = kv_cells (gen_ctx st0) ++ firstn k toks.
Proof.
  revert st0. induction n as [| n IH]; intro st0.
  { exists [], 0%nat. cbn. rewrite app_nil_r, Z.add_0_r. auto. }
  unfold generation_loop. cbn [for_loop].
  rewrite (generation_step_cases vocab st0). cbv zeta.
  set (tok := fst (llama_sampler_sample (gen_smpl st0) (gen_ctx st0))).
  destruct (llama_vocab_is_eog vocab tok) eqn:Heog.
  { exists [], 0%nat. cbn. rewrite app_nil_r, Z.add_0_r.
    repeat split; auto. lia. }
  destruct (fst (llama_decode (gen_ctx st0) [tok]) =? 0) eqn:Hrc;
    cbv beta iota zeta.
  - apply Z.eqb_eq in Hrc.
    match goal with
    | |- context [for_loop _ n ?st1] =>
        destruct (IH st1) as [toks [k [Hlen [Hall [Hresp [Hgen Hkv]]]]]]
    end.
    unfold generation_loop in Hresp, Hgen, Hkv.
    exists (tok :: toks), (S k).
    rewrite Hresp, Hgen, Hkv. cbn [response n_generated gen_ctx].
    rewrite llama_decode_ok by exact Hrc.
    cbn [List.length fold_left firstn]. rewrite <- app_assoc.
    repeat split; auto; simpl; lia.
  - exists [tok].
    destruct (llama_decode_grows (gen_ctx st0) [tok]) as [k Hk].
    exists k. cbn [response n_generated gen_ctx fold_left List.length].
    repeat split; auto; simpl; lia.
Qed.

(** The same for the streaming loop, on the calls made: token deliveries
    only, no more of them than the passes allowed. *)
Lemma streaming_loop_trace (vocab : option llama_vocab) (n : nat)
    (st0 : StreamState) :
  exists (texts : list bytes) (appended : list llama_token),
    (List.length texts <= n)%nat
    /\ delivered (streaming_loop n vocab st0)
       = delivered st0 ++ map OnToken texts
    /\ str_generated (streaming_loop n vocab st0)
       <= str_generated st0 + Z.of_nat n
    /\ kv_cells (str_ctx (streaming_loop n vocab st0))
       = kv_cells (str_ctx st0) ++ appended.
Proof.
  revert st0. induction n as [| n IH]; intro st0.
  { exists [], []. cbn. rewrite !app_nil_r. repeat split; auto; lia. }
  unfold streaming_loop. cbn [for_loop].
  rewrite (streaming_step_cases vocab st0). cbv zeta.
  set (tok := fst (llama_sampler_sample (str_smpl st0) (str_ctx st0))).
  destruct (llama_vocab_is_eog vocab tok) eqn:Heog.
  { exists [], []. cbn [delivered str_generated str_ctx map List.length].
    rewrite !app_nil_r. repeat split; auto; lia. }
  assert (Hpiece : exists piece,
             (List.length piece <= 1)%nat
             /\ deliver_piece vocab (delivered st0) tok
                = delivered st0 ++ map OnToken piece).
  { unfold deliver_piece. destruct (0 <? fst (llama_token_to_piece vocab tok)).
    - eexists [_]. split; [simpl; lia | reflexivity].
    - exists []. split; [simpl; lia | now rewrite app_nil_r]. }
  destruct Hpiece as [piece [Hplen Hpiece]].
  destruct (llama_decode_grows (str_ctx st0) [tok]) as [k Hk].
  destruct (fst (llama_decode (str_ctx st0) [tok]) =? 0) eqn:Hrc;
    cbv beta iota zeta.
  - match goal with
    | |- context [for_loop _ n ?st1] =>
        destruct (IH st1) as [texts [appended [Hlen [Hdel [Hgen Hkv]]]]]
    end.
    unfold streaming_loop in Hdel, Hgen, Hkv.
    exists (piece ++ texts), (firstn k [tok] ++ appended).
    cbn [delivered str_generated str_ctx] in Hdel, Hgen, Hkv.
    split; [rewrite length_app; lia |].
    split; [now rewrite Hdel, Hpiece, map_app, app_assoc |].
    split; [lia |].
    now rewrite Hkv, Hk, app_assoc.
  - exists piece, (firstn k [tok]).
    cbn [delivered str_generated str_ctx].
    repeat split; auto; lia.
Qed.

(** ** Entering the sampling loop *)

Lemma nativeGenerate_enters_loop (s : Session) (ctx ctx0 : context)
    (p : string) (n_tokens : Z) (tokens : list llama_token) (maxTokens : Z)
    (temperature : jfloat) :
  loaded_context s = Some ctx ->
  tokenize_text (g_vocab s) p true true = Some (n_tokens, tokens) ->
  ingest_chunks ctx tokens n_tokens 0 = (true, ctx0) ->
  nativeGenerate s (Some p) maxTokens temperature
  = generate_response s ctx0 maxTokens temperature.
Proof.
  intros Hctx Htok Hing. unfold nativeGenerate.
  now rewrite Hctx, Htok, Hing.
Qed.

Lemma nativeGenerateWithCache_enters_loop (s_in s : Session)
    (ctx ctx1 ctx0 : context) (sysStr userStr : string)
    (n_sys n_user : Z) (user_tokens : list llama_token) (maxTokens : Z)
    (temperature : jfloat) :
  loaded_context s_in = Some ctx ->
  resolve_system_prompt s_in ctx sysStr = PrefixReady s ctx1 n_sys ->
  tokenize_text (g_vocab s) (format_user_prompt userStr) false false
  = Some (n_user, user_tokens) ->
  ingest_chunks ctx1 user_tokens n_user 0 = (true, ctx0) ->
  nativeGenerateWithCache s_in (Some sysStr) (Some userStr) maxTokens
                          temperature
  = generate_response s ctx0 maxTokens temperature.
Proof.
  intros Hctx Hres Htok Hing. unfold nativeGenerateWithCache.
  now rewrite Hctx, Hres, Htok, Hing.
Qed.

(** C6.  In a blocking call that has entered the sampling loop with the
    context [ctx0]: when, at the top of some pass, the token drawn is not
    an end token and its decode fails, the call returns at once what a
    completed call returns, the sanitised response, made of the text of
    the passes before and the piece of this last token, with the decode
    state as the failed decode left it.  This holds for [nativeGenerate]
    and for [nativeGenerateWithCache]. *)
Theorem decode_failure_returns_partial_text (s : Session) (ctx0 : context)
    (maxTokens : Z) (temperature : jfloat) (n : nat) (st : GenState) :
  reaches (generation_step (g_vocab s)) (Z.to_nat maxTokens)
          (initial_gen_state s ctx0 temperature) (S n) st ->
  let tok := fst (llama_sampler_sample (gen_smpl st) (gen_ctx st)) in
  let failed := llama_decode (gen_ctx st) [tok] in
  llama_vocab_is_eog (g_vocab s) tok = false ->
  fst failed <> 0 ->
  let partial :=
    (set_context s (snd failed),
     ResponseReturn
       (sanitize_utf8 (append_piece (g_vocab s) (response st) tok))) in
  (forall (ctx : context) (p : string) (n_tokens : Z)
          (tokens : list llama_token),
      loaded_context s = Some ctx ->
      tokenize_text (g_vocab s) p true true = Some (n_tokens, tokens) ->
      ingest_chunks ctx tokens n_tokens 0 = (true, ctx0) ->
      nativeGenerate s (Some p) maxTokens temperature = partial)
  /\ (forall (s_in : Session) (ctx ctx1 : context) (sysStr userStr : string)
             (n_sys n_user : Z) (user_tokens : list llama_token),
        loaded_context s_in = Some ctx ->
        resolve_system_prompt s_in ctx sysStr = PrefixReady s ctx1 n_sys ->
        tokenize_text (g_vocab s) (format_user_prompt userStr) false false
        = Some (n_user, user_tokens) ->
        ingest_chunks ctx1 user_tokens n_user 0 = (true, ctx0) ->
        nativeGenerateWithCache s_in (Some sysStr) (Some userStr) maxTokens
                                temperature
        = partial).
Proof.
  intros Hreach tok failed Heog Hfail partial.
  assert (Hresp : generate_response s ctx0 maxTokens temperature = partial).
  { unfold generate_response, generation_loop.
    rewrite (reaches_for_loop Hreach). cbn [for_loop].
    rewrite (generation_step_cases (g_vocab s) st). cbv zeta.
    fold tok. rewrite Heog. fold failed.
    apply Z.eqb_neq in Hfail. rewrite Hfail. reflexivity. }
  split.
  - intros ctx p n_tokens tokens Hctx Htok Hing.
    rewrite <- Hresp. eapply nativeGenerate_enters_loop; eassumption.
  - intros s_in ctx ctx1 sysStr userStr n_sys n_user user_tokens
           Hctx Hres Htok Hing.
    rewrite <- Hresp. eapply nativeGenerateWithCache_enters_loop; eassumption.
Qed.

(** C7.  In each of the three sampling loops, when the token drawn at the
    top of a pass is an end token the loop is left there and then: the
    call ends with the response (the token deliveries) and the decode
    state of the passes before, so the end token is neither appended to
    the text, nor handed to [onToken], nor decoded.  The blocking loop
    is the one both [nativeGenerate] and [nativeGenerateWithCache] run. *)
Theorem end_of_sequence_stops_generation (s : Session) (ctx0 : context)
    (maxTokens : Z) (temperature : jfloat) (n : nat) :
  (forall st : GenState,
      reaches (generation_step (g_vocab s)) (Z.to_nat maxTokens)
              (initial_gen_state s ctx0 temperature) (S n) st ->
      llama_vocab_is_eog (g_vocab s)
        (fst (llama_sampler_sample (gen_smpl st) (gen_ctx st))) = true ->
      let final :=
        generation_loop (Z.to_nat maxTokens) (g_vocab s)
                        (initial_gen_state s ctx0 temperature) in
      response final = response st
      /\ gen_ctx final = gen_ctx st
      /\ n_generated final = n_generated st
      /\ generate_response s ctx0 maxTokens temperature
         = (set_context s (gen_ctx st),
            ResponseReturn (sanitize_utf8 (response st))))
  /\ (forall st : StreamState,
        reaches (streaming_step (g_vocab s)) (Z.to_nat maxTokens)
                (initial_stream_state s ctx0 temperature) (S n) st ->
        llama_vocab_is_eog (g_vocab s)
          (fst (llama_sampler_sample (str_smpl st) (str_ctx st))) = true ->
        let final :=
          streaming_loop (Z.to_nat maxTokens) (g_vocab s)
                         (initial_stream_state s ctx0 temperature) in
        delivered final = delivered st
        /\ str_ctx final = str_ctx st
        /\ str_generated final = str_generated st
        /\ stream_tokens s ctx0 maxTokens temperature
           = (set_context s (str_ctx st), delivered st ++ [OnComplete])).
Proof.
  split.
  - intros st Hreach Heog final.
    assert (Hfinal : final
                     = {| gen_smpl :=
                            snd (llama_sampler_sample (gen_smpl st)
                                                      (gen_ctx st));
                          gen_ctx := gen_ctx st; response := response st;
                          n_generated := n_generated st |}).
    { unfold final, generation_loop.
      rewrite (reaches_for_loop Hreach). cbn [for_loop].
      rewrite (generation_step_cases (g_vocab s) st). cbv zeta.
      now rewrite Heog. }
    unfold generate_response. fold final. rewrite Hfinal.
    repeat split; reflexivity.
  - intros st Hreach Heog final.
    assert (Hfinal : final
                     = {| str_smpl :=
                            snd (llama_sampler_sample (str_smpl st)
                                                      (str_ctx st));
                          str_ctx := str_ctx st; delivered := delivered st;
                          str_generated := str_generated st |}).
    { unfold final, streaming_loop.
      rewrite (reaches_for_loop Hreach). cbn [for_loop].
      rewrite (streaming_step_cases (g_vocab s) st). cbv zeta.
      now rewrite Heog. }
    unfold stream_tokens. fold final. rewrite Hfinal.
    repeat split; reflexivity.
Qed.

Lemma sanitize_utf8_nil : sanitize_utf8 [] = [].
Proof. now rewrite sanitize_utf8_suffix. Qed.

(** C8.  With a token budget [maxTokens >= 0] each sampling loop makes at
    most [maxTokens] passes (the loops are total functions, so every run
    ends): the blocking response is made of the pieces of at most
    [maxTokens] tokens, which [n_generated] counts, and the streaming
    loop delivers at most [maxTokens] token texts.  With a budget of 0 no
    token is drawn: the blocking call returns the empty response and the
    streaming call goes straight to [onComplete], the decode state as
    ingestion left it. *)
Theorem sampling_loop_budget (s : Session) (ctx : context) (maxTokens : Z)
    (temperature : jfloat) :
  0 <= maxTokens ->
  let final :=
    generation_loop (Z.to_nat maxTokens) (g_vocab s)
                    (initial_gen_state s ctx temperature) in
  let streamed :=
    streaming_loop (Z.to_nat maxTokens) (g_vocab s)
                   (initial_stream_state s ctx temperature) in
  (exists toks : list llama_token,
      Z.of_nat (List.length toks) <= maxTokens
      /\ n_generated final = Z.of_nat (List.length toks)
      /\ response final = fold_left (append_piece (g_vocab s)) toks [])
  /\ (exists texts : list bytes,
        Z.of_nat (List.length texts) <= maxTokens
        /\ delivered streamed = map OnToken texts)
  /\ str_generated streamed <= maxTokens
  /\ (maxTokens = 0 ->
      generate_response s ctx maxTokens temperature
      = (set_context s ctx, ResponseReturn [])
      /\ stream_tokens s ctx maxTokens temperature
         = (set_context s ctx, [OnComplete])).
Proof.
  intros Hpos final streamed.
  destruct (generation_loop_trace (g_vocab s) (Z.to_nat maxTokens)
              (initial_gen_state s ctx temperature))
    as [toks [k [Hlen [_ [Hresp [Hgen _]]]]]].
  destruct (streaming_loop_trace (g_vocab s) (Z.to_nat maxTokens)
              (initial_stream_state s ctx temperature))
    as [texts [appended [Hlen' [Hdel [Hcount _]]]]].
  split; [| split; [| split]].
  - exists toks. fold final in Hresp, Hgen.
    cbn [initial_gen_state response n_generated] in Hresp, Hgen.
    repeat split; [lia | lia | exact Hresp].
  - exists texts. fold streamed in Hdel. split; [lia | exact Hdel].
  - fold streamed in Hcount.
    cbn [initial_stream_state str_generated] in Hcount. lia.
  - intros ->. unfold generate_response, stream_tokens.
    cbn [Z.to_nat generation_loop streaming_loop for_loop
         initial_gen_state initial_stream_state gen_ctx response
         str_ctx delivered app].
    now rewrite sanitize_utf8_nil.
Qed.

(** ** What the plain entry point leaves alone *)

Lemma loaded_context_Some (s : Session) (ctx : context) :
  loaded_context s = Some ctx -> g_context s = Some ctx.
Proof.
  unfold loaded_context.
  destruct (g_initialized s), (g_model s), (g_context s);
    congruence.
Qed.

Lemma generate_response_cells (s : Session) (ctx : context) (maxTokens : Z)
    (temperature : jfloat) :
  exists (ctx' : context) (toks : list llama_token) (k : nat),
    generate_response s ctx maxTokens temperature
    = (set_context s ctx',
       ResponseReturn
         (sanitize_utf8 (fold_left (append_piece (g_vocab s)) toks [])))
    /\ kv_cells ctx' = kv_cells ctx ++ firstn k toks.
Proof.
  destruct (generation_loop_trace (g_vocab s) (Z.to_nat maxTokens)
              (initial_gen_state s ctx temperature))
    as [toks [k [_ [_ [Hresp [_ Hkv]]]]]].
  eexists. exists toks, k. unfold generate_response.
  rewrite Hresp. split; [reflexivity | exact Hkv].
Qed.


(** ** The streaming contract *)

Lemma forallb_is_token_map (texts : list bytes) :
  forallb is_token (map OnToken texts) = true.
Proof. induction texts as [| t texts IH]; [reflexivity | exact IH]. Qed.

Lemma stream_tokens_contract (s : Session) (ctx : context) (maxTokens : Z)
    (temperature : jfloat) :
  tokens_then_one_terminal (snd (stream_tokens s ctx maxTokens temperature)).
Proof.
  destruct (streaming_loop_trace (g_vocab s) (Z.to_nat maxTokens)
              (initial_stream_state s ctx temperature))
    as [texts [appended [_ [Hdel _]]]].
  exists (map OnToken texts), OnComplete.
  unfold stream_tokens. cbn [snd]. rewrite Hdel.
  repeat split. apply forallb_is_token_map.
Qed.

(** C5, as the code has it.  When the class of the callback object has
    all three methods, a streaming call makes token deliveries and then
    exactly one call of [onComplete] or [onError], nothing after it; a
    call that fails before the sampling loop (engine not loaded, prompt
    unreadable, tokenizing failed, a prompt chunk failed to decode)
    delivers no token and ends with [onError]. *)
Theorem streaming_terminal_contract (s : Session) (prompt : jstring)
    (maxTokens : Z) (temperature : jfloat) (callback : StreamCallback) :
  has_onToken callback = true ->
  has_onComplete callback = true ->
  has_onError callback = true ->
  let events :=
    snd (nativeGenerateStreaming s prompt maxTokens temperature callback) in
  tokens_then_one_terminal events
  /\ (loaded_context s = None
      \/ prompt = None
      \/ (exists p, prompt = Some p
                    /\ tokenize_text (g_vocab s) p true true = None)
      \/ (exists ctx p n_tokens tokens,
             loaded_context s = Some ctx /\ prompt = Some p
             /\ tokenize_text (g_vocab s) p true true
                = Some (n_tokens, tokens)
             /\ fst (ingest_chunks ctx tokens n_tokens 0) = false) ->
      exists msg, events = [OnError msg]).
Proof.
  intros Htoken Hcomplete Herror events.
  assert (Hone : forall msg, tokens_then_one_terminal [OnError msg]).
  { intro msg. exists [], (OnError msg). repeat split. }
  unfold events, nativeGenerateStreaming.
  rewrite Htoken, Hcomplete, Herror. cbn [negb orb].
  destruct (loaded_context s) as [ctx |] eqn:Hloaded.
  2:{ split; [apply Hone | intros _; eexists; reflexivity]. }
  destruct prompt as [p |].
  2:{ split; [apply Hone | intros _; eexists; reflexivity]. }
  destruct (tokenize_text (g_vocab s) p true true) as [[n tokens] |] eqn:Htok.
  2:{ split; [apply Hone | intros _; eexists; reflexivity]. }
  destruct (fst (ingest_chunks ctx tokens n 0)) eqn:Hing.
  2:{ split; [apply Hone | intros _; eexists; reflexivity]. }
  split; [apply stream_tokens_contract |].
  intros [H | [H | [[p' [Hp H]] | [ctx' [p' [n' [tokens' [Hl [Hp [H Hf]]]]]]]]]].
  - discriminate H.
  - discriminate H.
  - injection Hp as <-. congruence.
  - injection Hp as <-. injection Hl as <-.
    rewrite Htok in H. injection H as <- <-. congruence.
Qed.

(** C3, as the code has it.  A call of [nativeGenerateWithCache] on a
    miss that does not return early with one of the two system-prompt
    errors has, in this order, cleared the whole decode state, tokenized
    the framed system prompt and ingested it in chunks into the cleared
    state, and overwritten the record with the new text, tokens and
    count: after the ingestion the new tokens are resident and nothing
    else, whatever was resident before, and when the call returns the
    record is the new one and the resident tokens are the new prefix
    followed by what the rest of the turn appended. *)
Theorem cache_miss_effect (s : Session) (ctx : context)
    (sysStr userStr : string) (maxTokens : Z) (temperature : jfloat) :
  loaded_context s = Some ctx ->
  cache_hit s sysStr = false ->
  let r := nativeGenerateWithCache s (Some sysStr) (Some userStr) maxTokens
                                   temperature in
  snd r <> ErrorReturn "Error: System prompt tokenization failed" ->
  snd r <> ErrorReturn "Error: System prompt processing failed" ->
  exists (n_sys_tokens : Z) (sys_tokens : list llama_token),
    tokenize_text (g_vocab s) (format_system_prompt sysStr) true true
    = Some (n_sys_tokens, sys_tokens)
    /\ fst (ingest_chunks (llama_memory_clear ctx) sys_tokens n_sys_tokens 0)
       = true
    /\ kv_cells (snd (ingest_chunks (llama_memory_clear ctx) sys_tokens
                                    n_sys_tokens 0))
       = sys_tokens
    /\ cache_record (fst r) = (sysStr, sys_tokens, n_sys_tokens)
    /\ exists (ctx' : context) (appended : list llama_token),
         g_context (fst r) = Some ctx'
         /\ kv_cells ctx' = sys_tokens ++ appended.
Proof.
  intros Hl Hmiss. cbv zeta.
  unfold nativeGenerateWithCache. rewrite Hl.
  unfold resolve_system_prompt. rewrite Hmiss.
  unfold process_system_prompt.
  destruct (tokenize_text (g_vocab s) (format_system_prompt sysStr) true true)
    as [[n toks] |] eqn:Htok.
  2:{ cbn [snd]. intros H _. exfalso. apply H. reflexivity. }
  destruct (tokenize_text_length _ _ _ _ Htok) as [_ Hlen].
  destruct (@ingest_chunks_cells (llama_memory_clear ctx) toks n 0
              ltac:(lia) (eq_sym Hlen)) as [Hok _].
  cbn [Z.to_nat skipn llama_memory_clear kv_cells app] in Hok.
  destruct (fst (ingest_chunks (llama_memory_clear ctx) toks n 0)) eqn:Hfst.
  2:{ cbn [snd]. intros _ H. exfalso. apply H. reflexivity. }
  specialize (Hok eq_refl). intros _ _.
  exists n, toks.
  split; [reflexivity |]. split; [exact Hfst |]. split; [exact Hok |].
  set (ctx1 := snd (ingest_chunks (llama_memory_clear ctx) toks n 0)) in *.
  set (s1 := set_cache (set_context s ctx1) toks n sysStr).
  destruct (tokenize_text (g_vocab s1) (format_user_prompt userStr)
                          false false) as [[m user_tokens] |].
  2:{ split; [reflexivity |]. exists ctx1, [].
      split; [reflexivity | now rewrite app_nil_r]. }
  destruct (ingest_chunks_grows ctx1 user_tokens m 0) as [ingested Hing].
  destruct (fst (ingest_chunks ctx1 user_tokens m 0)).
  - destruct (generate_response_cells s1
                (snd (ingest_chunks ctx1 user_tokens m 0))
                maxTokens temperature) as [ctx' [gen [k [Heq Hkv]]]].
    rewrite Heq. split; [reflexivity |].
    exists ctx', (ingested ++ firstn k gen). split; [reflexivity |].
    now rewrite Hkv, Hing, Hok, app_assoc.
  - split; [reflexivity |].
    exists (snd (ingest_chunks ctx1 user_tokens m 0)), ingested.
    split; [reflexivity |]. now rewrite Hing, Hok.
Qed.

(** ** Where the invariant is kept *)

(** Appending to the decode state keeps the cached prefix in place. *)
Lemma coherent_grows (s : Session) (ctx ctx' : context)
    (appended : list llama_token) :
  prefix_cache_coherent s ->
  g_context s = Some ctx ->
  kv_cells ctx' = kv_cells ctx ++ appended ->
  prefix_cache_coherent (set_context s ctx').
Proof.
  intros Hcoh Hctx Hkv Hpos. cbn in Hpos.
  destruct (Hcoh Hpos) as [ctx0 [Hctx0 [Hlen Hcells]]].
  assert (ctx0 = ctx) as -> by congruence.
  exists ctx'. cbn. repeat split; [exact Hlen |].
  rewrite Hkv, firstn_app, Hcells.
  assert (Hge : (Z.to_nat (g_cached_system_length s)
                 <= List.length (kv_cells ctx))%nat).
  { apply (f_equal (@List.length llama_token)) in Hcells.
    rewrite length_firstn in Hcells. lia. }
  replace (Z.to_nat (g_cached_system_length s) - List.length (kv_cells ctx))%nat
    with 0%nat by lia.
  apply app_nil_r.
Qed.

(** [nativeFreeModel] clears the record with the context. *)
Lemma nativeFreeModel_coherent (s : Session) :
  prefix_cache_coherent (nativeFreeModel s).
Proof. intro H. cbn in H. lia. Qed.

(** X18.  [nativeGenerate] keeps the agreement between the prompt cache
    record and the decode state: it never writes the record and only
    appends to the resident tokens, so the recorded prefix stays where
    it was, on every path, error returns included. *)
Lemma nativeGenerate_coherent (s : Session) (prompt : jstring)
    (maxTokens : Z) (temperature : jfloat) :
  prefix_cache_coherent s ->
  prefix_cache_coherent (fst (nativeGenerate s prompt maxTokens temperature)).
Proof.
  intro Hcoh. unfold nativeGenerate.
  destruct (loaded_context s) as [ctx |] eqn:Hloaded; [| exact Hcoh].
  apply loaded_context_Some in Hloaded.
  destruct prompt as [p |]; [| exact Hcoh].
  destruct (tokenize_text (g_vocab s) p true true) as [[n tokens] |];
    [| exact Hcoh].
  destruct (ingest_chunks_grows ctx tokens n 0) as [ingested Hing].
  destruct (fst (ingest_chunks ctx tokens n 0)).
  - destruct (generate_response_cells s (snd (ingest_chunks ctx tokens n 0))
                maxTokens temperature) as [ctx' [toks [k [Heq Hkv]]]].
    rewrite Heq. cbn [fst].
    eapply coherent_grows; [exact Hcoh | exact Hloaded |].
    rewrite Hkv, Hing, <- app_assoc. reflexivity.
  - cbn [fst]. eapply coherent_grows; [exact Hcoh | exact Hloaded | exact Hing].
Qed.

(** X19.  [nativeGenerateStreaming] keeps that agreement too, whatever
    the callback object offers and wherever the call stops. *)
Lemma nativeGenerateStreaming_coherent (s : Session) (prompt : jstring)
    (maxTokens : Z) (temperature : jfloat) (callback : StreamCallback) :
  prefix_cache_coherent s ->
  prefix_cache_coherent
    (fst (nativeGenerateStreaming s prompt maxTokens temperature callback)).
Proof.
  intro Hcoh. unfold nativeGenerateStreaming.
  destruct (loaded_context s) as [ctx |] eqn:Hloaded; [| exact Hcoh].
  apply loaded_context_Some in Hloaded.
  destruct (negb (has_onToken callback) || negb (has_onComplete callback)
            || negb (has_onError callback)); [exact Hcoh |].
  destruct prompt as [p |]; [| exact Hcoh].
  destruct (tokenize_text (g_vocab s) p true true) as [[n tokens] |];
    [| exact Hcoh].
  destruct (ingest_chunks_grows ctx tokens n 0) as [ingested Hing].
  destruct (fst (ingest_chunks ctx tokens n 0)).
  - destruct (streaming_loop_trace (g_vocab s) (Z.to_nat maxTokens)
                (initial_stream_state s (snd (ingest_chunks ctx tokens n 0))
                                      temperature))
      as [texts [appended [_ [_ [_ Hkv]]]]].
    unfold stream_tokens. cbn [fst].
    eapply coherent_grows; [exact Hcoh | exact Hloaded |].
    rewrite Hkv. cbn [initial_stream_state str_ctx].
    rewrite Hing, <- app_assoc. reflexivity.
  - cbn [fst]. eapply coherent_grows; [exact Hcoh | exact Hloaded | exact Hing].
Qed.

(** Once the system-prompt part has gone through, on a hit or on a miss,
    record and decode state agree. *)
Lemma resolve_system_prompt_coherent (s s1 : Session) (ctx ctx1 : context)
    (sysStr : string) (n : Z) :
  prefix_cache_coherent s ->
  g_context s = Some ctx ->
  resolve_system_prompt s ctx sysStr = PrefixReady s1 ctx1 n ->
  prefix_cache_coherent s1 /\ g_context s1 = Some ctx1.
Proof.
  intros Hcoh Hctx Hres.
  destruct (cache_hit s sysStr) eqn:Hhit.
  - destruct (cache_hit_truncates s ctx sysStr Hhit)
      as [ctx' [Heq [Hkv _]]].
    rewrite Heq in Hres. injection Hres as <- <- <-.
    split; [| reflexivity].
    intro Hpos. cbn in Hpos.
    destruct (Hcoh Hpos) as [ctx0 [Hctx0 [Hlen Hcells]]].
    assert (ctx0 = ctx) as -> by congruence.
    exists ctx'. cbn. repeat split; [exact Hlen |].
    rewrite Hkv, firstn_firstn, Nat.min_id. exact Hcells.
  - unfold resolve_system_prompt in Hres. rewrite Hhit in Hres.
    destruct (process_system_prompt_ready _ _ _ Hres)
      as [sys_tokens [_ [_ [Hctx1 [Hkv [Hrec Hlen]]]]]].
    split; [| exact Hctx1].
    unfold cache_record in Hrec. injection Hrec as Hp Ht Hn.
    intros _. exists ctx1. rewrite Hn, Ht.
    repeat split; [exact Hctx1 | | ].
    + rewrite <- Hkv. exact Hlen.
    + rewrite Hkv. apply firstn_all2. rewrite Hkv in Hlen. lia.
Qed.

(** X20.  [nativeGenerateWithCache] keeps the agreement between record
    and decode state on every path except the early returns of its
    system-prompt part (tokenizing or ingesting the system prompt
    failed): a hit truncates to the recorded prefix, a miss rebuilds
    both, and the user turn and the sampled tokens are appended. *)
Lemma nativeGenerateWithCache_coherent (s : Session)
    (systemPrompt userMessage : jstring) (maxTokens : Z)
    (temperature : jfloat) :
  prefix_cache_coherent s ->
  (forall ctx sysStr s1 msg,
      loaded_context s = Some ctx -> systemPrompt = Some sysStr ->
      resolve_system_prompt s ctx sysStr <> PrefixFailed s1 msg) ->
  prefix_cache_coherent
    (fst (nativeGenerateWithCache s systemPrompt userMessage maxTokens
                                  temperature)).
Proof.
  intros Hcoh Hsys. unfold nativeGenerateWithCache.
  destruct (loaded_context s) as [ctx |] eqn:Hloaded; [| exact Hcoh].
  destruct systemPrompt as [sysStr |]; [| exact Hcoh].
  destruct userMessage as [userStr |]; [| exact Hcoh].
  destruct (resolve_system_prompt s ctx sysStr) as [s1 msg | s1 ctx1 n]
    eqn:Hres.
  { exfalso. exact (Hsys ctx sysStr s1 msg eq_refl eq_refl Hres). }
  destruct (@resolve_system_prompt_coherent s s1 ctx ctx1 sysStr n Hcoh
              (@loaded_context_Some s ctx Hloaded) Hres) as [Hcoh1 Hctx1].
  destruct (tokenize_text (g_vocab s1) (format_user_prompt userStr)
                          false false) as [[m tokens] |]; [| exact Hcoh1].
  destruct (ingest_chunks_grows ctx1 tokens m 0) as [ingested Hing].
  destruct (fst (ingest_chunks ctx1 tokens m 0)).
  - destruct (generate_response_cells s1 (snd (ingest_chunks ctx1 tokens m 0))
                maxTokens temperature) as [ctx' [toks [k [Heq Hkv]]]].
    rewrite Heq. cbn [fst].
    eapply coherent_grows; [exact Hcoh1 | exact Hctx1 |].
    rewrite Hkv, Hing, <- app_assoc. reflexivity.
  - cbn [fst]. eapply coherent_grows; [exact Hcoh1 | exact Hctx1 | exact Hing].
Qed.

End EngineProperties.

(** * The entry points on the small backend *)

(** C4, at the input that fails.  A model is loaded, a cached turn with
    the system prompt "You are a calculator." stores 67 tokens, and the
    model is loaded again: the new context is empty, the record is kept.
    The next cached turn with the same system prompt is a hit with count
    67 that leaves 0 positions resident, not 67, and the user turn is
    ingested from position 0: after the call position 0 holds the first
    token of the user turn, not the first token of the cached prefix. *)
Theorem cache_hit_after_reload_keeps_no_prefix :
  let ctx := Toy.context_of Toy.reloaded in
  cache_hit Toy.reloaded "You are a calculator." = true
  /\ g_cached_system_length Toy.reloaded = 67
  /\ @resolve_system_prompt Toy.backend Toy.reloaded ctx
       "You are a calculator."
     = PrefixReady (set_context Toy.reloaded ctx) ctx 67
  /\ kv_cells ctx = []
  /\ (let after :=
        fst (@nativeGenerateWithCache Toy.backend Toy.reloaded
               (Some "You are a calculator."%string) (Some "3+3="%string)
               5 0%Q) in
      nth_error (kv_cells (Toy.context_of after)) 0 = Some 0x3C
      /\ nth_error (g_cached_system_tokens after) 0 = Some 1).
Proof.
  cbv zeta. repeat split; vm_compute; reflexivity.
Qed.

(** ** The invariant between record and decode state *)

(** C1, at the input that fails.  After a cached turn the invariant holds;
    loading the model again releases the context and creates an empty
    one but leaves the record in place ([nativeFreeModel] clears it, the
    release at the head of [nativeLoadModel] does not), so the record
    claims 67 cached tokens of which none is resident. *)
Theorem reload_breaks_prefix_cache_invariant :
  snd (Toy.load Toy.cached "model.gguf") = true
  /\ prefix_cache_coherent Toy.cached
  /\ g_cached_system_length Toy.reloaded = 67
  /\ kv_cells (Toy.context_of Toy.reloaded) = []
  /\ ~ prefix_cache_coherent Toy.reloaded.
Proof.
  assert (Hlen : g_cached_system_length Toy.reloaded = 67)
    by (vm_compute; reflexivity).
  assert (Hkv : kv_cells (Toy.context_of Toy.reloaded) = [])
    by (vm_compute; reflexivity).
  split; [vm_compute; reflexivity |].
  split.
  { intros _. exists (Toy.context_of Toy.cached).
    repeat split; vm_compute; reflexivity. }
  split; [exact Hlen |].
  split; [exact Hkv |].
  intro H.
  destruct H as [ctx [Hctx [Hcount Hcells]]]; [rewrite Hlen; lia |].
  unfold Toy.context_of in Hkv. rewrite Hctx in Hkv.
  change (@kv_cells (@backend_state Toy.backend) ctx = []) in Hkv.
  rewrite Hkv, firstn_nil in Hcells.
  rewrite <- Hcells, Hlen in Hcount. discriminate Hcount.
Qed.

(** The early returns of the miss branch leave the same gap.  On the
    medium model a cached turn whose new system prompt does not fit the
    context clears the decode state, fails to ingest the prompt and
    returns: the record still holds the previous prompt and its 67
    tokens, and nothing is resident. *)
Lemma failed_miss_breaks_prefix_cache_invariant :
  prefix_cache_coherent Toy.cached_medium
  /\ snd (@nativeGenerateWithCache Toy.backend Toy.cached_medium
            (Some Toy.long_prompt) (Some "2+2="%string) 5 0%Q)
     = ErrorReturn "Error: System prompt processing failed"
  /\ cache_record Toy.overflowed = cache_record Toy.cached_medium
  /\ g_cached_system_length Toy.overflowed = 67
  /\ kv_cells (Toy.context_of Toy.overflowed) = []
  /\ ~ prefix_cache_coherent Toy.overflowed.
Proof.
  assert (Hlen : g_cached_system_length Toy.overflowed = 67)
    by (vm_compute; reflexivity).
  assert (Hkv : kv_cells (Toy.context_of Toy.overflowed) = [])
    by (vm_compute; reflexivity).
  split.
  { intros _. exists (Toy.context_of Toy.cached_medium).
    repeat split; vm_compute; reflexivity. }
  split; [vm_compute; reflexivity |].
  split; [vm_compute; reflexivity |].
  split; [exact Hlen |].
  split; [exact Hkv |].
  intro H.
  destruct H as [ctx [Hctx [Hcount Hcells]]]; [rewrite Hlen; lia |].
  unfold Toy.context_of in Hkv. rewrite Hctx in Hkv.
  change (@kv_cells (@backend_state Toy.backend) ctx = []) in Hkv.
  rewrite Hkv, firstn_nil in Hcells.
  rewrite <- Hcells, Hlen in Hcount. discriminate Hcount.
Qed.

(** ** The general statements at work *)

Lemma cache_hit_exact_witness :
  cache_hit Toy.cached "You are a calculator." = true
  /\ cache_hit (set_cache Toy.cached [1; 0x59] 2 "You are helpful")
               "You are helpful " = false.
Proof.
  split.
  - apply (proj1 (@cache_hit_exact Toy.backend Toy.cached
                    "You are a calculator.")).
    split; [reflexivity | vm_compute; reflexivity].
  - apply (proj2 (@cache_hit_exact Toy.backend Toy.cached
                    "You are a calculator.")
             [1; 0x59] 2 (Toy.context_of Toy.cached)).
Defined.

(** A miss on [Toy.cached], where 124 tokens of the first turn are
    resident: afterwards the record is the new prompt with its tokens,
    and what is resident starts with those tokens. *)
Lemma cache_miss_effect_witness :
  List.length (kv_cells (Toy.context_of Toy.cached)) = 124%nat
  /\ exists (n_sys_tokens : Z) (sys_tokens : list llama_token),
       cache_record
         (fst (@nativeGenerateWithCache Toy.backend Toy.cached
                 (Some "You are helpful"%string) (Some "hi"%string) 5 0%Q))
       = ("You are helpful"%string, sys_tokens, n_sys_tokens)
       /\ exists (ctx' : llama_context nat) (appended : list llama_token),
            g_context
              (fst (@nativeGenerateWithCache Toy.backend Toy.cached
                      (Some "You are helpful"%string) (Some "hi"%string) 5
                      0%Q))
            = Some ctx'
            /\ kv_cells ctx' = sys_tokens ++ appended.
Proof.
  split; [vm_compute; reflexivity |].
  assert (Hl : @loaded_context Toy.backend Toy.cached
               = Some (Toy.context_of Toy.cached))
    by (vm_compute; reflexivity).
  assert (Hmiss : cache_hit Toy.cached "You are helpful" = false)
    by (vm_compute; reflexivity).
  assert (Hreply :
            match snd (@nativeGenerateWithCache Toy.backend Toy.cached
                         (Some "You are helpful"%string) (Some "hi"%string)
                         5 0%Q) with
            | ResponseReturn _ => true
            | ErrorReturn _ => false
            end = true) by (vm_compute; reflexivity).
  destruct (@cache_miss_effect Toy.backend Toy.cached
              (Toy.context_of Toy.cached) "You are helpful" "hi" 5 0%Q
              Hl Hmiss)
    as [n [toks [_ [_ [_ [Hrec Hcells]]]]]].
  - intro H. rewrite H in Hreply. discriminate Hreply.
  - intro H. rewrite H in Hreply. discriminate Hreply.
  - exists n, toks. split; [exact Hrec | exact Hcells].
Defined.

(** C3, where it fails.  On the medium model the second cached turn, with
    a system prompt of 146 tokens, is a miss; the prompt does not fit the
    128 cells, the call returns early, and the record is still the one
    of the first turn: text "You are a calculator.", count 67. *)
Lemma cache_miss_effect_counterexample :
  cache_hit Toy.cached_medium Toy.long_prompt = false
  /\ option_map fst
       (@tokenize_text Toy.backend (g_vocab Toy.cached_medium)
          (format_system_prompt Toy.long_prompt) true true)
     = Some 146
  /\ snd (@nativeGenerateWithCache Toy.backend Toy.cached_medium
            (Some Toy.long_prompt) (Some "2+2="%string) 5 0%Q)
     = ErrorReturn "Error: System prompt processing failed"
  /\ g_cached_system_prompt
       (fst (@nativeGenerateWithCache Toy.backend Toy.cached_medium
               (Some Toy.long_prompt) (Some "2+2="%string) 5 0%Q))
     = "You are a calculator."%string
  /\ g_cached_system_length
       (fst (@nativeGenerateWithCache Toy.backend Toy.cached_medium
               (Some Toy.long_prompt) (Some "2+2="%string) 5 0%Q))
     = 67
  /\ g_cached_system_prompt
       (fst (@nativeGenerateWithCache Toy.backend Toy.cached_medium
               (Some Toy.long_prompt) (Some "2+2="%string) 5 0%Q))
     <> Toy.long_prompt.
Proof.
  repeat split; try (vm_compute; reflexivity).
  vm_compute. discriminate.
Defined.

(** On the four-cell model the prompt "Hi" takes three cells, the first
    token drawn fits, the second does not: the call returns the text of
    both. *)
Lemma decode_failure_returns_partial_text_witness :
  snd (@nativeGenerate Toy.backend Toy.loaded_small (Some "Hi"%string) 5
         (7 # 10))
  = ResponseReturn [0x63; 0x62].
Proof.
  set (ctx := Toy.context_of Toy.loaded_small).
  set (ctx0 := snd (@ingest_chunks Toy.backend ctx [1; 0x48; 0x69] 3 0)).
  set (st0 := @initial_gen_state Toy.backend Toy.loaded_small ctx0 (7 # 10)).
  set (st1 := @generation_loop Toy.backend 1 (Some tt) st0).
  assert (Hreach : reaches (@generation_step Toy.backend
                              (g_vocab Toy.loaded_small))
                           (Z.to_nat 5) st0 4 st1).
  { apply reaches_next with (st := st0); [apply reaches_start |].
    vm_compute. reflexivity. }
  destruct (@decode_failure_returns_partial_text Toy.backend
              Toy.loaded_small ctx0 5 (7 # 10) 3 st1 Hreach)
    as [H _]; [vm_compute; reflexivity | vm_compute; discriminate |].
  rewrite (H ctx "Hi"%string 3 [1; 0x48; 0x69]);
    [vm_compute; reflexivity | vm_compute; reflexivity
     | vm_compute; reflexivity | vm_compute; reflexivity].
Defined.

(** On the large model the sampler set up with top-k 3 draws three
    letters and then the end token: the fourth pass leaves the loop with
    the three letters as response and as last resident tokens. *)
Lemma end_of_sequence_stops_generation_witness :
  @generate_response Toy.backend Toy.loaded
    (snd (@ingest_chunks Toy.backend (Toy.context_of Toy.loaded)
            [1; 0x48; 0x69] 3 0)) 5 (7 # 10)
  = (set_context Toy.loaded
       {| cparams := cparams (Toy.context_of Toy.loaded);
          kv_cells := [1; 0x48; 0x69; 0x63; 0x62; 0x61];
          impl := 4096%nat |},
     ResponseReturn [0x63; 0x62; 0x61]).
Proof.
  set (ctx0 := snd (@ingest_chunks Toy.backend (Toy.context_of Toy.loaded)
                      [1; 0x48; 0x69] 3 0)).
  set (st0 := @initial_gen_state Toy.backend Toy.loaded ctx0 (7 # 10)).
  set (st3 := @generation_loop Toy.backend 3 (Some tt) st0).
  assert (Hreach : reaches (@generation_step Toy.backend (g_vocab Toy.loaded))
                           (Z.to_nat 5) st0 2 st3).
  { apply reaches_next
      with (st := @generation_loop Toy.backend 2 (Some tt) st0).
    - apply reaches_next
        with (st := @generation_loop Toy.backend 1 (Some tt) st0).
      + apply reaches_next with (st := st0); [apply reaches_start |].
        vm_compute. reflexivity.
      + vm_compute. reflexivity.
    - vm_compute. reflexivity. }
  destruct (proj1 (@end_of_sequence_stops_generation Toy.backend Toy.loaded
                     ctx0 5 (7 # 10) 1) st3 Hreach)
    as [_ [_ [_ H]]]; [vm_compute; reflexivity |].
  rewrite H. vm_compute. reflexivity.
Defined.

(** A budget of 0 on a loaded model: the empty response, one
    [onComplete]. *)
Lemma sampling_loop_budget_witness :
  @generate_response Toy.backend Toy.loaded (Toy.context_of Toy.loaded) 0
                     (7 # 10)
  = (set_context Toy.loaded (Toy.context_of Toy.loaded), ResponseReturn [])
  /\ @stream_tokens Toy.backend Toy.loaded (Toy.context_of Toy.loaded) 0
                    (7 # 10)
     = (set_context Toy.loaded (Toy.context_of Toy.loaded), [OnComplete]).
Proof.
  destruct (@sampling_loop_budget Toy.backend Toy.loaded
              (Toy.context_of Toy.loaded) 0 (7 # 10) ltac:(lia))
    as [_ [_ [_ H]]].
  exact (H eq_refl).
Defined.


(** A streaming call on the large model: three tokens, then
    [onComplete]. *)
Lemma streaming_terminal_contract_witness :
  tokens_then_one_terminal
    (snd (@nativeGenerateStreaming Toy.backend Toy.loaded (Some "Hi"%string)
            5 (7 # 10) Toy.full_callback)).
Proof.
  apply (@streaming_terminal_contract Toy.backend Toy.loaded
           (Some "Hi"%string) 5 (7 # 10) Toy.full_callback);
    reflexivity.
Defined.

(** C5, where it fails.  On a loaded engine a callback object whose class
    lacks [onComplete] gets no call at all, so neither [onComplete] nor
    [onError] fires; and on the four-cell model, where the decode of the
    second token drawn fails, the call ends with [onComplete] and
    [onError] is never invoked. *)
Lemma streaming_contract_counterexample :
  (let events :=
     snd (@nativeGenerateStreaming Toy.backend Toy.loaded (Some "Hi"%string)
            5 (7 # 10) Toy.callback_without_onComplete) in
   events = [] /\ ~ tokens_then_one_terminal events)
  /\ (let ctx1 :=
        snd (@llama_decode Toy.backend
               (snd (@ingest_chunks Toy.backend
                       (Toy.context_of Toy.loaded_small) [1; 0x48; 0x69] 3 0))
               [0x63]) in
      kv_cells ctx1 = [1; 0x48; 0x69; 0x63]
      /\ fst (@llama_decode Toy.backend ctx1 [0x62]) = 1
      /\ snd (@nativeGenerateStreaming Toy.backend Toy.loaded_small
                (Some "Hi"%string) 5 (7 # 10) Toy.full_callback)
         = [OnToken [0x63]; OnToken [0x62]; OnComplete]).
Proof.
  split.
  - cbv zeta. split; [vm_compute; reflexivity |].
    intros [tokens [last [H _]]].
    vm_compute in H. destruct tokens; discriminate H.
  - cbv zeta. repeat split; vm_compute; reflexivity.
Defined.


(** * Further properties *)

(** ** What the sanitising pass lets through *)

Lemma accepted_utf8_scan (s tail : bytes) :
  accepted_utf8 s ->
  sanitize_suffix (s ++ tail) = s ++ sanitize_suffix tail.
Proof.
  induction 1 as [| c rest Hc _ IH | c b1 rest Hc H1 _ IH
                  | c b1 b2 rest Hc H1 H2 _ IH
                  | c b1 b2 b3 rest Hc H1 H2 H3 _ IH];
    [reflexivity | | | |];
    cbn [app]; rewrite sanitize_suffix_cons;
    rewrite ?H1, ?H2, ?H3; decide_tests; rewrite IH; reflexivity.
Qed.

Lemma sanitize_suffix_accepted (s : bytes) : accepted_utf8 (sanitize_suffix s).
Proof.
  remember (List.length s) as n eqn:Hn.
  revert s Hn.
  induction n as [n IH] using lt_wf_ind; intros s Hn.
  destruct s as [| c t]; [constructor |].
  assert (Hacc : forall u, (List.length u <= List.length t)%nat ->
                           accepted_utf8 (sanitize_suffix u)).
  { intros u Hu. apply (IH (List.length u)); [simpl in Hn; lia | reflexivity]. }
  rewrite sanitize_suffix_cons.
  pose proof (Hacc t (Nat.le_refl _)) as Ht.
  set (skipped := sanitize_suffix t) in *. clearbody skipped.
  destruct (c <=? 0x7F) eqn:E1.
  { apply Z.leb_le in E1. apply accepted_1; assumption. }
  destruct t as [| b1 [| b2 [| b3 t3]]];
    repeat match goal with
           | |- context [if ?b then _ else _] => destruct b eqn:?
           end;
    try exact Ht;
    repeat match goal with
           | H : _ && _ = true |- _ => apply andb_true_iff in H; destruct H
           | H : (_ <=? _) = true |- _ => apply Z.leb_le in H
           end.
  - apply accepted_2; [lia | assumption | apply Hacc; simpl; lia].
  - apply accepted_2; [lia | assumption | apply Hacc; simpl; lia].
  - apply accepted_3; [lia | assumption | assumption | apply Hacc; simpl; lia].
  - apply accepted_2; [lia | assumption | apply Hacc; simpl; lia].
  - apply accepted_3; [lia | assumption | assumption | apply Hacc; simpl; lia].
  - apply accepted_4;
      [lia | assumption | assumption | assumption | apply Hacc; simpl; lia].
Qed.

Lemma subsequence_length (A : Type) (l1 l2 : list A) :
  subsequence l1 l2 -> (List.length l1 <= List.length l2)%nat.
Proof. induction 1; simpl; lia. Qed.

(** X1.  Whatever bytes go in, what the sanitising pass gives back is made
    of single bytes up to 0x7F and of lead bytes each followed by all the
    continuation bytes it announces; it is no longer than the input; and
    a second pass changes nothing. *)
Theorem sanitize_utf8_output_accepted (raw : bytes) :
  accepted_utf8 (sanitize_utf8 raw)
  /\ (List.length (sanitize_utf8 raw) <= List.length raw)%nat
  /\ sanitize_utf8 (sanitize_utf8 raw) = sanitize_utf8 raw.
Proof.
  rewrite !sanitize_utf8_suffix.
  pose proof (sanitize_suffix_accepted raw) as Hacc.
  split; [exact Hacc |].
  split; [apply subsequence_length, sanitize_suffix_subsequence |].
  rewrite <- (app_nil_r (sanitize_suffix raw)) at 1.
  rewrite (accepted_utf8_scan [] Hacc). simpl. apply app_nil_r.
Qed.

Lemma sanitize_utf8_accepted_id (s : bytes) :
  accepted_utf8 s -> sanitize_utf8 s = s.
Proof.
  intro H. rewrite sanitize_utf8_suffix. rewrite <- (app_nil_r s) at 1.
  rewrite (accepted_utf8_scan [] H). simpl. apply app_nil_r.
Qed.

(** X2.  The byte sequences the sanitising pass returns unchanged are
    exactly those with that structure: any byte it would have to drop (a
    stray continuation byte, a lead byte above 0xF7, a lead byte short of
    continuation bytes) shows as a difference between input and output. *)
Theorem sanitize_utf8_fixed_iff_accepted (s : bytes) :
  sanitize_utf8 s = s <-> accepted_utf8 s.
Proof.
  rewrite sanitize_utf8_suffix. split.
  - intro H. rewrite <- H. apply sanitize_suffix_accepted.
  - intro H. rewrite <- sanitize_utf8_suffix.
    now apply sanitize_utf8_accepted_id.
Qed.

Lemma accepted_utf8_app (a b : bytes) :
  accepted_utf8 a -> accepted_utf8 b -> accepted_utf8 (a ++ b).
Proof.
  intros Ha Hb. induction Ha; cbn [app]; [exact Hb | | | |];
    constructor; assumption.
Qed.

Lemma sanitize_utf8_app_accepted (a b : bytes) :
  accepted_utf8 a -> sanitize_utf8 (a ++ b) = a ++ sanitize_utf8 b.
Proof. intro H. rewrite !sanitize_utf8_suffix. now apply accepted_utf8_scan. Qed.

Section MoreEngineProperties.

Context {BE : Backend}.

(** ** The four handles *)

Lemma handles_consistent_loaded (s : Session) (ctx : context) :
  handles_consistent s -> g_initialized s = true ->
  g_context s = Some ctx -> loaded_context s = Some ctx.
Proof.
  unfold handles_consistent, loaded_context. intros H Hi Hc.
  rewrite Hi in *. destruct H as [Hm _].
  destruct (g_model s); [| congruence]. now rewrite Hc.
Qed.

(** A session that differs from a loaded one in the context object and
    the cache record only is as consistent. *)
Lemma handles_consistent_same (s s' : Session) :
  handles_consistent s ->
  g_initialized s' = g_initialized s -> g_model s' = g_model s ->
  g_vocab s' = g_vocab s ->
  (g_context s' = g_context s \/
   (g_initialized s = true /\ g_context s' <> None)) ->
  handles_consistent s'.
Proof.
  unfold handles_consistent. intros H Hi Hm Hv Hc.
  rewrite Hi, Hm, Hv.
  destruct Hc as [Hc | [Hinit Hc]].
  - now rewrite Hc.
  - rewrite Hinit in *. tauto.
Qed.

Lemma loaded_context_initialized (s : Session) (ctx : context) :
  loaded_context s = Some ctx -> g_initialized s = true.
Proof.
  unfold loaded_context.
  destruct (g_initialized s); [reflexivity |].
  destruct (g_model s); discriminate.
Qed.

Lemma set_context_consistent (s : Session) (ctx ctx' : context) :
  handles_consistent s -> loaded_context s = Some ctx ->
  handles_consistent (set_context s ctx').
Proof.
  intros H Hl.
  eapply handles_consistent_same; [exact H | reflexivity .. |].
  right. split; [exact (@loaded_context_initialized s ctx Hl) | discriminate].
Qed.

Lemma resolve_system_prompt_handles (s : Session) (ctx : context)
    (sysStr : string) :
  match resolve_system_prompt s ctx sysStr with
  | PrefixReady s1 ctx1 _ =>
      g_initialized s1 = g_initialized s /\ g_model s1 = g_model s
      /\ g_vocab s1 = g_vocab s /\ g_params s1 = g_params s
      /\ g_context s1 = Some ctx1
  | PrefixFailed s1 _ =>
      g_initialized s1 = g_initialized s /\ g_model s1 = g_model s
      /\ g_vocab s1 = g_vocab s /\ g_params s1 = g_params s
      /\ g_context s1 <> None
  end.
Proof.
  unfold resolve_system_prompt, process_system_prompt.
  destruct (cache_hit s sysStr); [repeat split |].
  destruct (tokenize_text _ _ _ _) as [[n toks] |];
    [| repeat split; discriminate].
  destruct (fst (ingest_chunks _ _ _ _)); repeat split; discriminate.
Qed.

(** X3.  The four handles move together through every entry point: from a
    session in which model, context and vocab are all set while
    [g_initialized] and all null otherwise, each of [nativeLoadModel],
    [nativeFreeModel], [nativeGenerate], [nativeGenerateWithCache] and
    [nativeGenerateStreaming] leads to such a session again, whatever
    the arguments and whatever the backend does. *)
Theorem handles_consistent_kept (s : Session) :
  handles_consistent s ->
  (forall modelPath nThreads ctxSize temperature topK topP minP,
      handles_consistent
        (fst (nativeLoadModel s modelPath nThreads ctxSize temperature topK
                              topP minP)))
  /\ handles_consistent (nativeFreeModel s)
  /\ (forall prompt maxTokens temperature,
        handles_consistent (fst (nativeGenerate s prompt maxTokens temperature)))
  /\ (forall systemPrompt userMessage maxTokens temperature,
        handles_consistent
          (fst (nativeGenerateWithCache s systemPrompt userMessage maxTokens
                                        temperature)))
  /\ (forall prompt maxTokens temperature callback,
        handles_consistent
          (fst (nativeGenerateStreaming s prompt maxTokens temperature
                                        callback))).
Proof.
  intro H. split; [| split; [| split; [| split]]].
  - intros modelPath nThreads ctxSize temperature topK topP minP.
    unfold nativeLoadModel.
    set (s0 := if g_initialized s then set_handles s None None None false
               else s).
    assert (H0 : g_initialized s0 = false /\ g_model s0 = None
                 /\ g_context s0 = None /\ g_vocab s0 = None).
    { unfold s0, handles_consistent in *.
      destruct (g_initialized s) eqn:E; [repeat split | tauto]. }
    destruct H0 as [Hi [Hm [Hc Hv]]].
    assert (Hs0 : handles_consistent s0).
    { unfold handles_consistent. rewrite Hi. auto. }
    destruct modelPath as [path |]; [| exact Hs0].
    destruct (negb (file_readable path)); [exact Hs0 |].
    destruct (llama_model_load_from_file path) as [model |].
    2:{ unfold handles_consistent. cbn. rewrite Hi, Hc, Hv. auto. }
    destruct (llama_model_get_vocab model) as [vocab |].
    2:{ unfold handles_consistent. cbn. rewrite Hi, Hc. auto. }
    destruct (llama_init_from_model model _) as [b |].
    2:{ unfold handles_consistent. cbn. rewrite Hi. auto. }
    unfold handles_consistent. cbn. repeat split; discriminate.
  - unfold handles_consistent. cbn. auto.
  - intros prompt maxTokens temperature. unfold nativeGenerate.
    destruct (loaded_context s) as [ctx |] eqn:Hl; [| exact H].
    destruct prompt as [p |]; [| exact H].
    destruct (tokenize_text _ _ _ _) as [[n toks] |]; [| exact H].
    destruct (fst (ingest_chunks ctx toks n 0));
      exact (@set_context_consistent s ctx _ H Hl).
  - intros systemPrompt userMessage maxTokens temperature.
    unfold nativeGenerateWithCache.
    destruct (loaded_context s) as [ctx |] eqn:Hl; [| exact H].
    destruct systemPrompt as [sysStr |]; [| exact H].
    destruct userMessage as [userStr |]; [| exact H].
    pose proof (@loaded_context_initialized s ctx Hl) as Hinit.
    pose proof (resolve_system_prompt_handles s ctx sysStr) as Hres.
    destruct (resolve_system_prompt s ctx sysStr) as [s1 msg | s1 ctx1 n].
    { destruct Hres as [Hi [Hm [Hv [_ Hc]]]]. cbn [fst].
      eapply handles_consistent_same; [exact H | exact Hi | exact Hm
                                       | exact Hv |].
      right. auto. }
    destruct Hres as [Hi [Hm [Hv [_ Hc]]]].
    assert (H1 : handles_consistent s1).
    { eapply handles_consistent_same; [exact H | exact Hi | exact Hm
                                       | exact Hv |].
      right. split; [exact Hinit | congruence]. }
    assert (Hset : forall c, handles_consistent (set_context s1 c)).
    { intro c.
      eapply handles_consistent_same; [exact H1 | reflexivity .. |].
      right. split; [congruence | discriminate]. }
    destruct (tokenize_text _ _ _ _) as [[m toks] |]; [| exact H1].
    destruct (fst (ingest_chunks ctx1 toks m 0)); apply Hset.
  - intros prompt maxTokens temperature callback.
    unfold nativeGenerateStreaming.
    destruct (loaded_context s) as [ctx |] eqn:Hl; [| exact H].
    destruct (negb _ || negb _ || negb _); [exact H |].
    destruct prompt as [p |]; [| exact H].
    destruct (tokenize_text _ _ _ _) as [[n toks] |]; [| exact H].
    destruct (fst (ingest_chunks ctx toks n 0));
      exact (@set_context_consistent s ctx _ H Hl).
Qed.

(** ** Loading and unloading *)

(** X4.  [nativeLoadModel] on a readable path string returns true exactly
    when the file opens, the model loads, its vocab is there and the
    context is created; the session is then loaded with an empty decode
    state in a context of [max(ctxSize, 4096)] positions and batch width
    2048, the sampling parameters are the arguments with [maxTokens]
    left as it was, and the prompt cache record is the one from before
    the call. *)
Theorem nativeLoadModel_success (s : Session) (path : string)
    (nThreads ctxSize : Z) (temperature : jfloat) (topK : Z)
    (topP minP : jfloat) :
  let r := nativeLoadModel s (Some path) nThreads ctxSize temperature topK
                           topP minP in
  let ctx_params :=
    {| n_ctx := Z.max ctxSize 4096; n_batch := 2048; n_ubatch := 2048;
       n_threads := nThreads; n_threads_batch := nThreads |} in
  (snd r = true <->
   file_readable path = true
   /\ exists model vocab b,
        llama_model_load_from_file path = Some model
        /\ llama_model_get_vocab model = Some vocab
        /\ llama_init_from_model model ctx_params = Some b)
  /\ (snd r = true ->
      exists ctx,
        loaded_context (fst r) = Some ctx
        /\ kv_cells ctx = []
        /\ cparams ctx = ctx_params
        /\ 4096 <= n_ctx (cparams ctx)
        /\ g_params (fst r)
           = {| maxTokens := maxTokens (g_params s);
                temperature := temperature; topK := topK; topP := topP;
                minP := minP; nThreads := nThreads; ctxSize := ctxSize |}
        /\ cache_record (fst r) = cache_record s).
Proof.
  cbv zeta. unfold nativeLoadModel.
  destruct (file_readable path); cbn [negb].
  2:{ split; [split; [discriminate | intros [H _]; discriminate]
             | discriminate]. }
  destruct (llama_model_load_from_file path) as [model |].
  2:{ split; [split; [discriminate | ] | discriminate].
      intros [_ [m [v [b [H _]]]]]. discriminate. }
  destruct (llama_model_get_vocab model) as [vocab |] eqn:Hv.
  2:{ split; [split; [discriminate | ] | discriminate].
      intros [_ [m [v [b [H [H' _]]]]]]. injection H as <-. congruence. }
  destruct (llama_init_from_model model _) as [b |] eqn:Hb.
  2:{ split; [split; [discriminate | ] | discriminate].
      intros [_ [m [v [b [H [H' H'']]]]]]. injection H as <-. congruence. }
  split.
  - split; [| reflexivity]. intros _. split; [reflexivity |].
    exists model, vocab, b. auto.
  - intros _. eexists. cbn [fst]. unfold loaded_context. cbn.
    split; [reflexivity |]. split; [reflexivity |].
    split; [reflexivity |]. split; [cbn; lia |].
    destruct (g_initialized s); split; reflexivity.
Qed.

(** X5.  A load that fails leaves the engine unloaded, also when a model
    was loaded before the call: the earlier model and context are
    released first and nothing is put back, so a generation call after a
    failed load reports that no model is loaded.  The sampling parameters
    and the prompt cache record are not touched. *)
Theorem nativeLoadModel_failure (s : Session) (modelPath : jstring)
    (nThreads ctxSize : Z) (temperature : jfloat) (topK : Z)
    (topP minP : jfloat) :
  handles_consistent s ->
  let r := nativeLoadModel s modelPath nThreads ctxSize temperature topK
                           topP minP in
  snd r = false ->
  g_initialized (fst r) = false
  /\ g_model (fst r) = None /\ g_context (fst r) = None
  /\ g_vocab (fst r) = None
  /\ g_params (fst r) = g_params s
  /\ cache_record (fst r) = cache_record s
  /\ (forall prompt maxTokens temperature',
        nativeGenerate (fst r) prompt maxTokens temperature'
        = (fst r, ErrorReturn "Error: Model not loaded")).
Proof.
  intros H r Hr.
  assert (Hcore : g_initialized (fst r) = false
                  /\ g_model (fst r) = None /\ g_context (fst r) = None
                  /\ g_vocab (fst r) = None
                  /\ g_params (fst r) = g_params s
                  /\ cache_record (fst r) = cache_record s).
  { revert Hr. unfold r, nativeLoadModel.
    set (s0 := if g_initialized s then set_handles s None None None false
               else s).
    assert (H0 : g_initialized s0 = false /\ g_model s0 = None
                 /\ g_context s0 = None /\ g_vocab s0 = None
                 /\ g_params s0 = g_params s
                 /\ cache_record s0 = cache_record s).
    { unfold s0, handles_consistent in *.
      destruct (g_initialized s) eqn:E; [repeat split | tauto]. }
    destruct H0 as [Hi [Hm [Hc [Hv [Hp Hrec]]]]].
    destruct modelPath as [path |]; [| intros _; repeat split; assumption].
    destruct (negb (file_readable path));
      [intros _; repeat split; assumption |].
    destruct (llama_model_load_from_file path) as [model |];
      [| intros _; cbn; repeat split; assumption].
    destruct (llama_model_get_vocab model) as [vocab |];
      [| intros _; cbn; repeat split; assumption].
    destruct (llama_init_from_model model _) as [b |];
      [discriminate | intros _; cbn; repeat split; assumption]. }
  destruct Hcore as [Hi [Hm [Hc [Hv [Hp Hrec]]]]].
  repeat split; try assumption.
  intros prompt maxTokens temperature'.
  unfold nativeGenerate, loaded_context. now rewrite Hi.
Qed.

Lemma not_initialized_not_loaded (s : Session) :
  g_initialized s = false -> loaded_context s = None.
Proof. unfold loaded_context. now intros ->. Qed.

(** X6.  After [nativeFreeModel], whatever state it is called in, the
    prompt cache record is empty and every generation entry point
    refuses without touching the state: the blocking ones reply
    "Error: Model not loaded", the streaming one calls [onError] once,
    on a callback object that has the method, and nothing else.  Freeing
    twice is freeing once. *)
Theorem nativeFreeModel_then_refused (s : Session) :
  let freed := nativeFreeModel s in
  nativeFreeModel freed = freed
  /\ cache_record freed = (EmptyString, [], 0)
  /\ (forall prompt maxTokens temperature,
        nativeGenerate freed prompt maxTokens temperature
        = (freed, ErrorReturn "Error: Model not loaded"))
  /\ (forall systemPrompt userMessage maxTokens temperature,
        nativeGenerateWithCache freed systemPrompt userMessage maxTokens
                                temperature
        = (freed, ErrorReturn "Error: Model not loaded"))
  /\ (forall prompt maxTokens temperature callback,
        has_onError callback = true ->
        nativeGenerateStreaming freed prompt maxTokens temperature callback
        = (freed, [OnError "Model not loaded"])).
Proof.
  cbv zeta. repeat split.
  intros prompt maxTokens temperature callback He.
  unfold nativeGenerateStreaming. cbn. now rewrite He.
Qed.

(** ** Token count estimate *)

(** X7.  [nativeGetTokenCount] on a readable text: while no model is
    loaded (in particular after [nativeFreeModel]) it is the byte length
    of the text divided by four, rounded down, and never a tokenizer
    count; with a model loaded, any count it returns is positive and is
    the number the tokenizer reported for the text without begin
    marker. *)
Theorem nativeGetTokenCount_estimate (s : Session) (str : string) :
  nativeGetTokenCount (nativeFreeModel s) (Some str)
  = Some (Z.of_nat (String.length str) / 4)
  /\ (g_initialized s = false ->
      nativeGetTokenCount s (Some str)
      = Some (Z.of_nat (String.length str) / 4))
  /\ (forall n,
        g_initialized s = true -> g_vocab s <> None ->
        nativeGetTokenCount s (Some str) = Some n ->
        0 < n
        /\ n = neg32 (fst (llama_tokenize (g_vocab s) str 0 false false))).
Proof.
  split; [reflexivity |]. split.
  - intro Hi. unfold nativeGetTokenCount. now rewrite Hi.
  - intros n Hi Hv. unfold nativeGetTokenCount. rewrite Hi.
    destruct (g_vocab s); [| congruence]. cbn [negb orb].
    destruct (0 <? neg32 _) eqn:E; [| discriminate].
    intro H. injection H as <-. apply Z.ltb_lt in E. auto.
Qed.

(** ** Chunked ingestion *)

Lemma chunks_fuel (f1 f2 : nat) (l : list llama_token) :
  (List.length l <= f1)%nat -> (List.length l <= f2)%nat ->
  chunks f1 l = chunks f2 l.
Proof.
  revert f2 l. induction f1 as [| f1 IH]; intros f2 l H1 H2.
  - destruct l; [| simpl in H1; lia]. destruct f2; reflexivity.
  - destruct l as [| t ts]; [destruct f2; reflexivity |].
    destruct f2 as [| f2]; [simpl in H2; lia |].
    cbn [chunks]. f_equal.
    assert (Hlen : (List.length (skipn (Z.to_nat CHUNK_SIZE) (t :: ts))
                    <= List.length ts)%nat).
    { rewrite length_skipn. unfold CHUNK_SIZE. simpl List.length. lia. }
    simpl in H1, H2. apply IH; lia.
Qed.

Lemma chunk_list_cons (l : list llama_token) :
  l <> [] ->
  chunk_list l
  = firstn (Z.to_nat CHUNK_SIZE) l
    :: chunk_list (skipn (Z.to_nat CHUNK_SIZE) l).
Proof.
  intro Hne. destruct l as [| t ts]; [congruence |].
  unfold chunk_list. cbn [List.length chunks]. f_equal.
  apply chunks_fuel; [| lia].
  rewrite length_skipn. unfold CHUNK_SIZE. simpl List.length. lia.
Qed.

Lemma chunk_list_nil : chunk_list [] = [].
Proof. reflexivity. Qed.

Lemma chunk_list_shape (l : list llama_token) :
  concat (chunk_list l) = l
  /\ Forall (fun batch => (0 < List.length batch <= 2048)%nat) (chunk_list l).
Proof.
  remember (List.length l) as n eqn:Hn. revert l Hn.
  induction n as [n IH] using lt_wf_ind; intros l Hn.
  destruct l as [| t ts]; [split; [reflexivity | constructor] |].
  rewrite chunk_list_cons by discriminate.
  set (l := t :: ts) in *.
  assert (Hskip : (List.length (skipn (Z.to_nat CHUNK_SIZE) l) < n)%nat).
  { rewrite length_skipn. unfold CHUNK_SIZE. subst n l. simpl List.length.
    lia. }
  destruct (IH _ Hskip _ eq_refl) as [Hcat Hall].
  split.
  - cbn [concat]. rewrite Hcat. apply firstn_skipn.
  - constructor; [| exact Hall].
    rewrite length_firstn. unfold CHUNK_SIZE. subst l. simpl List.length.
    lia.
Qed.

Lemma ingest_chunks_decode_all (ctx : context) (tokens : list llama_token)
    (n_tokens tokens_processed : Z) :
  0 <= tokens_processed ->
  n_tokens = Z.of_nat (List.length tokens) ->
  ingest_chunks ctx tokens n_tokens tokens_processed
  = decode_all ctx (chunk_list (skipn (Z.to_nat tokens_processed) tokens)).
Proof.
  intros Hpos Hn.
  remember (Z.to_nat (n_tokens - tokens_processed)) as m eqn:Hm.
  revert ctx tokens_processed Hpos Hm.
  induction m as [m IH] using lt_wf_ind; intros ctx tp Hpos Hm.
  rewrite ingest_chunks_body.
  destruct (tp <? n_tokens) eqn:Hlt.
  2:{ apply Z.ltb_ge in Hlt. rewrite skipn_all2 by lia. reflexivity. }
  apply Z.ltb_lt in Hlt. cbv zeta.
  set (rest := skipn (Z.to_nat tp) tokens).
  assert (Hrest : Z.of_nat (List.length rest) = n_tokens - tp).
  { unfold rest. rewrite length_skipn. lia. }
  assert (Hne : rest <> []).
  { intro E. rewrite E in Hrest. simpl in Hrest. lia. }
  rewrite (chunk_list_cons Hne). cbn [decode_all].
  set (cs := Z.min CHUNK_SIZE (n_tokens - tp)).
  assert (Hcs : 0 < cs) by (unfold cs, CHUNK_SIZE; lia).
  assert (Hfirst : firstn (Z.to_nat cs) rest
                   = firstn (Z.to_nat CHUNK_SIZE) rest).
  { destruct (Z_le_gt_dec CHUNK_SIZE (n_tokens - tp)) as [Hle | Hgt].
    - unfold cs. now rewrite Z.min_l by exact Hle.
    - unfold cs. rewrite Z.min_r by lia.
      rewrite !firstn_all2 by lia. reflexivity. }
  assert (Hskip : skipn (Z.to_nat (tp + cs)) tokens
                  = skipn (Z.to_nat CHUNK_SIZE) rest).
  { replace (Z.to_nat (tp + cs)) with (Z.to_nat tp + Z.to_nat cs)%nat by lia.
    rewrite skipn_add. fold rest.
    destruct (Z_le_gt_dec CHUNK_SIZE (n_tokens - tp)) as [Hle | Hgt].
    - unfold cs. now rewrite Z.min_l by exact Hle.
    - unfold cs. rewrite Z.min_r by lia.
      rewrite !skipn_all2 by lia. reflexivity. }
  rewrite Hfirst.
  destruct (fst (llama_decode ctx (firstn (Z.to_nat CHUNK_SIZE) rest)) =? 0);
    [| reflexivity].
  rewrite <- Hskip.
  apply (IH (Z.to_nat (n_tokens - (tp + cs)))); [lia | lia | reflexivity].
Qed.

(** X8.  Chunked ingestion of a token vector is the decode, one batch
    after the other and stopping at the first failure, of the vector cut
    into consecutive pieces: the pieces put end to end are the vector,
    none is empty and none has more than 2048 tokens. *)
Theorem ingest_chunks_chunkwise (ctx : context) (tokens : list llama_token) :
  ingest_chunks ctx tokens (Z.of_nat (List.length tokens)) 0
  = decode_all ctx (chunk_list tokens)
  /\ concat (chunk_list tokens) = tokens
  /\ Forall (fun batch => (0 < List.length batch <= 2048)%nat)
            (chunk_list tokens).
Proof.
  split; [| apply chunk_list_shape].
  now rewrite ingest_chunks_decode_all by (lia || reflexivity).
Qed.

Lemma llama_decode_cparams (ctx : context) (batch : list llama_token) :
  cparams (snd (llama_decode ctx batch)) = cparams ctx.
Proof.
  unfold llama_decode.
  destruct (decode_status (impl ctx) (kv_cells ctx) batch) as [[rc kept] b].
  reflexivity.
Qed.

(** X9.  What chunked ingestion does to the decode state: when it
    succeeds, the tokens of the vector follow, in order, the tokens
    resident before; when a chunk fails, a leading part of them does
    (what earlier chunks ingested stays, nothing is rolled back); in
    neither case is a resident token removed or changed. *)
Theorem ingest_chunks_appends (ctx : context) (tokens : list llama_token)
    (n_tokens : Z) :
  n_tokens = Z.of_nat (List.length tokens) ->
  let r := ingest_chunks ctx tokens n_tokens 0 in
  (fst r = true -> kv_cells (snd r) = kv_cells ctx ++ tokens)
  /\ (exists k, kv_cells (snd r) = kv_cells ctx ++ firstn k tokens)
  /\ firstn (List.length (kv_cells ctx)) (kv_cells (snd r)) = kv_cells ctx.
Proof.
  intros Hn r.
  destruct (@ingest_chunks_cells _ ctx tokens n_tokens 0 ltac:(lia) Hn)
    as [Hok [k Hk]].
  cbn [Z.to_nat skipn] in Hok, Hk. fold r in Hok, Hk.
  split; [exact Hok |]. split; [exists k; exact Hk |].
  rewrite Hk, firstn_app, firstn_all, Nat.sub_diag. cbn [firstn].
  apply app_nil_r.
Qed.

(** ** Error replies of the plain entry point *)

(** X10.  Every error reply of [nativeGenerate] is one of four literals,
    each with its cause: no model loaded, prompt unreadable, tokenizing
    failed, a prompt chunk failed to decode.  In the first three cases
    the session is left exactly as it was; in the last one the context
    is as the failed chunk left it and nothing else has changed.  A
    prompt for which the tokenizer reports no token at all, not even a
    begin marker, is a tokenizing failure. *)
Theorem nativeGenerate_error_replies (s : Session) (prompt : jstring)
    (maxTokens : Z) (temperature : jfloat) :
  let s' := fst (nativeGenerate s prompt maxTokens temperature) in
  (forall msg,
      snd (nativeGenerate s prompt maxTokens temperature) = ErrorReturn msg ->
      (msg = "Error: Model not loaded"%string
       /\ loaded_context s = None /\ s' = s)
      \/ (msg = "Error: Invalid prompt"%string /\ prompt = None /\ s' = s)
      \/ (msg = "Error: Tokenization failed"%string /\ s' = s
          /\ exists p, prompt = Some p
                       /\ tokenize_text (g_vocab s) p true true = None)
      \/ (msg = "Error: Prompt processing failed"%string
          /\ exists ctx p n_tokens tokens,
               loaded_context s = Some ctx /\ prompt = Some p
               /\ tokenize_text (g_vocab s) p true true
                  = Some (n_tokens, tokens)
               /\ fst (ingest_chunks ctx tokens n_tokens 0) = false
               /\ s' = set_context s (snd (ingest_chunks ctx tokens
                                                         n_tokens 0))))
  /\ (forall ctx p,
        loaded_context s = Some ctx -> prompt = Some p ->
        fst (llama_tokenize (g_vocab s) p 0 true true) = 0 ->
        nativeGenerate s prompt maxTokens temperature
        = (s, ErrorReturn "Error: Tokenization failed")).
Proof.
  cbv zeta. split.
  - intro msg. unfold nativeGenerate.
    destruct (loaded_context s) as [ctx |] eqn:Hl.
    2:{ intro H. injection H as <-. left. auto. }
    destruct prompt as [p |].
    2:{ intro H. injection H as <-. right. left. auto. }
    destruct (tokenize_text (g_vocab s) p true true) as [[n tokens] |]
      eqn:Htok.
    2:{ intro H. injection H as <-. right. right. left.
        repeat split. exists p. auto. }
    destruct (fst (ingest_chunks ctx tokens n 0)) eqn:Hing.
    + unfold generate_response. discriminate.
    + intro H. injection H as <-. right. right. right.
      split; [reflexivity |]. exists ctx, p, n, tokens. auto.
  - intros ctx p Hl -> Hzero. unfold nativeGenerate, tokenize_text.
    rewrite Hl, Hzero. reflexivity.
Qed.

(** ** Cached turns *)

Lemma generate_response_record (s : Session) (ctx : context) (maxTokens : Z)
    (temperature : jfloat) :
  cache_record (fst (generate_response s ctx maxTokens temperature))
  = cache_record s.
Proof. reflexivity. Qed.

(** From the system-prompt part on, a cached turn only appends. *)
Lemma cached_turn_tail (s1 : Session) (ctx1 : context) (userStr : string)
    (maxTokens : Z) (temperature : jfloat) :
  let r :=
    match tokenize_text (g_vocab s1) (format_user_prompt userStr)
                        false false with
    | None => (s1, ErrorReturn "Error: User message tokenization failed")
    | Some (n_user_tokens, user_tokens) =>
        let i := ingest_chunks ctx1 user_tokens n_user_tokens 0 in
        if fst i then generate_response s1 (snd i) maxTokens temperature
        else (set_context s1 (snd i),
              ErrorReturn "Error: User message processing failed")
    end in
  g_context s1 = Some ctx1 ->
  cache_record (fst r) = cache_record s1
  /\ exists ctx' appended,
       g_context (fst r) = Some ctx'
       /\ kv_cells ctx' = kv_cells ctx1 ++ appended.
Proof.
  cbv zeta. intro Hctx.
  destruct (tokenize_text _ _ _ _) as [[m tokens] |].
  2:{ split; [reflexivity |]. exists ctx1, []. now rewrite app_nil_r. }
  destruct (ingest_chunks_grows ctx1 tokens m 0) as [ingested Hing].
  destruct (fst (ingest_chunks ctx1 tokens m 0)).
  - destruct (generate_response_cells s1 (snd (ingest_chunks ctx1 tokens m 0))
                maxTokens temperature) as [ctx' [toks [k [Heq Hkv]]]].
    rewrite Heq. split; [reflexivity |].
    exists ctx', (ingested ++ firstn k toks).
    split; [reflexivity |]. now rewrite Hkv, Hing, app_assoc.
  - split; [reflexivity |]. eexists. exists ingested.
    split; [reflexivity | exact Hing].
Qed.

(** X11.  A hit on a session in which record and decode state agree: the
    truncation leaves exactly the cached tokens resident, as many as the
    record counts, and when the user turn is tokenized and ingested the
    call ends with the cached tokens, the user-turn tokens and the
    generated tokens resident in that order, whatever turns were resident
    after the prefix before, and with the record untouched. *)
Theorem cache_hit_keeps_exactly_prefix (s : Session) (ctx : context)
    (sysStr userStr : string) (maxTokens : Z) (temperature : jfloat) :
  prefix_cache_coherent s ->
  loaded_context s = Some ctx ->
  cache_hit s sysStr = true ->
  exists ctx1,
    resolve_system_prompt s ctx sysStr
    = PrefixReady (set_context s ctx1) ctx1 (g_cached_system_length s)
    /\ kv_cells ctx1 = g_cached_system_tokens s
    /\ Z.of_nat (List.length (kv_cells ctx1)) = g_cached_system_length s
    /\ (forall n_user user_tokens,
          tokenize_text (g_vocab s) (format_user_prompt userStr) false false
          = Some (n_user, user_tokens) ->
          fst (ingest_chunks ctx1 user_tokens n_user 0) = true ->
          let r := nativeGenerateWithCache s (Some sysStr) (Some userStr)
                                           maxTokens temperature in
          cache_record (fst r) = cache_record s
          /\ exists ctx' toks k,
               g_context (fst r) = Some ctx'
               /\ kv_cells ctx'
                  = g_cached_system_tokens s ++ user_tokens ++ firstn k toks
               /\ snd r
                  = ResponseReturn
                      (sanitize_utf8
                         (fold_left (append_piece (g_vocab s)) toks []))).
Proof.
  intros Hcoh Hl Hhit.
  destruct (cache_hit_truncates s ctx sysStr Hhit) as [ctx1 [Hres [Hkv Hlen]]].
  assert (Hpos : 0 < g_cached_system_length s).
  { apply andb_true_iff in Hhit. destruct Hhit as [_ H].
    now apply Z.ltb_lt in H. }
  destruct (Hcoh Hpos) as [ctx0 [Hctx0 [Hcount Hcells]]].
  assert (ctx0 = ctx) as ->.
  { apply loaded_context_Some in Hl. congruence. }
  assert (Hkv1 : kv_cells ctx1 = g_cached_system_tokens s) by congruence.
  exists ctx1. split; [exact Hres |]. split; [exact Hkv1 |].
  split; [rewrite Hkv1; exact Hcount |].
  intros n_user user_tokens Htok Hok. cbv zeta.
  unfold nativeGenerateWithCache. rewrite Hl, Hres.
  change (g_vocab (set_context s ctx1)) with (g_vocab s).
  rewrite Htok, Hok.
  destruct (tokenize_text_length _ _ _ _ Htok) as [Hn Hulen].
  destruct (@ingest_chunks_cells _ ctx1 user_tokens n_user 0 ltac:(lia)
              (eq_sym Hulen)) as [Hcells1 _].
  specialize (Hcells1 Hok). cbn [Z.to_nat skipn] in Hcells1.
  destruct (generate_response_cells (set_context s ctx1)
              (snd (ingest_chunks ctx1 user_tokens n_user 0))
              maxTokens temperature) as [ctx' [toks [k [Heq Hkv']]]].
  rewrite Heq. split; [reflexivity |].
  exists ctx', toks, k. split; [reflexivity |].
  split; [| reflexivity].
  now rewrite Hkv', Hcells1, Hkv1, app_assoc.
Qed.

(** X12.  A cached turn that returns a response leaves a record that the
    next turn with the same system prompt hits: the stored text is that
    system prompt and the stored count is positive, whether the turn
    itself was a hit or a miss. *)
Theorem completed_turn_then_hit (s : Session) (sysStr : string)
    (userMessage : jstring) (maxTokens : Z) (temperature : jfloat)
    (r : bytes) :
  snd (nativeGenerateWithCache s (Some sysStr) userMessage maxTokens
                               temperature)
  = ResponseReturn r ->
  let s' := fst (nativeGenerateWithCache s (Some sysStr) userMessage
                                         maxTokens temperature) in
  cache_hit s' sysStr = true
  /\ g_cached_system_prompt s' = sysStr
  /\ 0 < g_cached_system_length s'.
Proof.
  cbv zeta. unfold nativeGenerateWithCache.
  destruct (loaded_context s) as [ctx |]; [| discriminate].
  destruct userMessage as [userStr |]; [| discriminate].
  assert (Hs1 : forall s1 ctx1 n,
             resolve_system_prompt s ctx sysStr = PrefixReady s1 ctx1 n ->
             g_cached_system_prompt s1 = sysStr
             /\ 0 < g_cached_system_length s1).
  { intros s1 ctx1 n Hres. unfold resolve_system_prompt in Hres.
    destruct (cache_hit s sysStr) eqn:Hhit.
    - injection Hres as <- _ _. cbn.
      apply andb_true_iff in Hhit. destruct Hhit as [He Hp].
      apply String.eqb_eq in He. apply Z.ltb_lt in Hp. auto.
    - destruct (process_system_prompt_ready _ _ _ Hres)
        as [toks [Htok [_ [_ [_ [Hrec _]]]]]].
      unfold cache_record in Hrec. injection Hrec as Hp _ Hn.
      destruct (tokenize_text_length _ _ _ _ Htok) as [Hpos _].
      split; [exact Hp | lia]. }
  destruct (resolve_system_prompt s ctx sysStr) as [s1 msg | s1 ctx1 n];
    [discriminate |].
  destruct (Hs1 s1 ctx1 n eq_refl) as [Hp Hn].
  assert (Hhit1 : forall s2, cache_record s2 = cache_record s1 ->
                             cache_hit s2 sysStr = true
                             /\ g_cached_system_prompt s2 = sysStr
                             /\ 0 < g_cached_system_length s2).
  { intros s2 Hrec. unfold cache_record in Hrec. injection Hrec as H1 _ H3.
    unfold cache_hit. rewrite H1, H3, Hp. rewrite String.eqb_refl.
    repeat split; [| lia]. apply andb_true_iff. split; [reflexivity |].
    now apply Z.ltb_lt. }
  destruct (tokenize_text _ _ _ _) as [[m tokens] |]; [| discriminate].
  destruct (fst (ingest_chunks ctx1 tokens m 0)); [| discriminate].
  intros _. cbn [fst]. apply Hhit1. reflexivity.
Qed.

(** X13.  A miss that gets past the system prompt re-establishes the
    invariant between record and decode state whatever the two were
    before the call: it builds both anew, and the rest of the turn only
    appends. *)
Theorem miss_restores_coherence (s : Session) (ctx : context)
    (sysStr userStr : string) (maxTokens : Z) (temperature : jfloat) :
  loaded_context s = Some ctx ->
  cache_hit s sysStr = false ->
  (forall s1 msg, resolve_system_prompt s ctx sysStr <> PrefixFailed s1 msg) ->
  prefix_cache_coherent
    (fst (nativeGenerateWithCache s (Some sysStr) (Some userStr) maxTokens
                                  temperature)).
Proof.
  intros Hl Hmiss Hready. unfold nativeGenerateWithCache. rewrite Hl.
  destruct (resolve_system_prompt s ctx sysStr) as [s1 msg | s1 ctx1 n]
    eqn:Hres; [exfalso; exact (Hready s1 msg eq_refl) |].
  unfold resolve_system_prompt in Hres. rewrite Hmiss in Hres.
  destruct (process_system_prompt_ready _ _ _ Hres)
    as [toks [_ [_ [Hctx1 [Hkv [Hrec Hlen]]]]]].
  unfold cache_record in Hrec. injection Hrec as _ Ht Hn.
  assert (Hcoh1 : prefix_cache_coherent s1).
  { intros _. exists ctx1. rewrite Hn, Ht.
    split; [exact Hctx1 |]. split; [rewrite <- Hkv; exact Hlen |].
    rewrite Hkv. apply firstn_all2. rewrite Hkv in Hlen. lia. }
  destruct (@cached_turn_tail s1 ctx1 userStr maxTokens temperature Hctx1)
    as [Hrec' [ctx' [appended [Hctx' Hkv']]]].
  match goal with
  | |- prefix_cache_coherent (fst ?r) => set (res := r) in *
  end.
  assert (Hres' : fst res = set_context (fst res) ctx').
  { destruct (fst res); cbn in *. now rewrite Hctx'. }
  assert (Hsame : cache_record (fst res) = cache_record s1) by exact Hrec'.
  intro Hpos. unfold cache_record in Hsame. injection Hsame as _ H2 H3.
  rewrite H3 in Hpos. destruct (Hcoh1 Hpos) as [c [Hc [Hcnt Hcl]]].
  assert (c = ctx1) as -> by congruence.
  exists ctx'. rewrite H2, H3. split; [exact Hctx' |].
  split; [exact Hcnt |].
  rewrite Hkv', firstn_app, Hcl.
  replace (Z.to_nat (g_cached_system_length s1) - List.length (kv_cells ctx1))%nat
    with 0%nat.
  - apply app_nil_r.
  - apply (f_equal (@List.length llama_token)) in Hcl.
    rewrite length_firstn in Hcl. lia.
Qed.

(** ** The streaming entry point *)

(** X14.  [nativeGenerateStreaming] never writes the prompt cache record
    and never clears or truncates the decode state: the resident tokens
    afterwards are those resident before followed by what the call
    appended.  A call that makes no callback at all, and a call whose
    only callback is an [onError] other than for a failed prompt chunk,
    leave the session exactly as it was. *)
Theorem nativeGenerateStreaming_frame (s : Session) (prompt : jstring)
    (maxTokens : Z) (temperature : jfloat) (callback : StreamCallback) :
  let r := nativeGenerateStreaming s prompt maxTokens temperature callback in
  cache_record (fst r) = cache_record s
  /\ (forall ctx : context,
        g_context s = Some ctx ->
        exists (ctx' : context) (appended : list llama_token),
          g_context (fst r) = Some ctx'
          /\ kv_cells ctx' = kv_cells ctx ++ appended)
  /\ (snd r = [] -> fst r = s)
  /\ (forall msg,
        snd r = [OnError msg] ->
        msg <> "Prompt processing failed"%string -> fst r = s).
Proof.
  cbv zeta. unfold nativeGenerateStreaming.
  destruct (loaded_context s) as [ctx0 |] eqn:Hl.
  2:{ repeat split; auto. intros ctx Hc. exists ctx, [].
      now rewrite app_nil_r. }
  apply loaded_context_Some in Hl.
  assert (Hsame : forall events : list CallbackEvent,
             cache_record (fst (s, events)) = cache_record s
             /\ (forall ctx : context,
                   g_context s = Some ctx ->
                   exists (ctx' : context) (appended : list llama_token),
                     g_context (fst (s, events)) = Some ctx'
                     /\ kv_cells ctx' = kv_cells ctx ++ appended)
             /\ (snd (s, events) = [] -> fst (s, events) = s)
             /\ (forall msg,
                   snd (s, events) = [OnError msg] ->
                   msg <> "Prompt processing failed"%string ->
                   fst (s, events) = s)).
  { intro events. repeat split; auto. intros ctx Hc. exists ctx, [].
    now rewrite app_nil_r. }
  destruct (negb _ || negb _ || negb _); [apply Hsame |].
  destruct prompt as [p |]; [| apply Hsame].
  destruct (tokenize_text _ _ _ _) as [[n tokens] |]; [| apply Hsame].
  destruct (ingest_chunks_grows ctx0 tokens n 0) as [ingested Hing].
  destruct (fst (ingest_chunks ctx0 tokens n 0)).
  - destruct (streaming_loop_trace (g_vocab s) (Z.to_nat maxTokens)
                (initial_stream_state s (snd (ingest_chunks ctx0 tokens n 0))
                                      temperature))
      as [texts [appended [_ [Hdel [_ Hkv]]]]].
    unfold stream_tokens. cbn [fst snd].
    split; [reflexivity |]. split; [| split].
    + intros ctx Hc. assert (ctx = ctx0) as -> by congruence.
      eexists. exists (ingested ++ appended). split; [reflexivity |].
      rewrite Hkv. cbn [initial_stream_state str_ctx].
      now rewrite Hing, app_assoc.
    + intro H. destruct (delivered _); discriminate H.
    + intros msg H. exfalso. rewrite Hdel in H.
      cbn [initial_stream_state delivered app] in H.
      destruct texts as [| t [| t' texts]]; discriminate H.
  - cbn [fst snd]. split; [reflexivity |]. split; [| split].
    + intros ctx Hc. assert (ctx = ctx0) as -> by congruence.
      eexists. exists ingested. split; [reflexivity | exact Hing].
    + discriminate.
    + intros msg H Hne. injection H as <-. congruence.
Qed.

(** ** What reaches the Java side *)

Lemma streaming_loop_accepted (vocab : option llama_vocab) (n : nat)
    (st0 : StreamState) :
  Forall token_text_accepted (delivered st0) ->
  Forall token_text_accepted (delivered (streaming_loop n vocab st0)).
Proof.
  revert st0. induction n as [| n IH]; intros st0 H0; [exact H0 |].
  unfold streaming_loop. cbn [for_loop].
  rewrite (streaming_step_cases vocab st0). cbv zeta.
  set (tok := fst (llama_sampler_sample (str_smpl st0) (str_ctx st0))).
  assert (Hd : Forall token_text_accepted
                 (deliver_piece vocab (delivered st0) tok)).
  { unfold deliver_piece.
    destruct (0 <? fst (llama_token_to_piece vocab tok)); [| exact H0].
    apply Forall_app. split; [exact H0 |].
    constructor; [| constructor]. cbn.
    rewrite sanitize_utf8_suffix. apply sanitize_suffix_accepted. }
  destruct (llama_vocab_is_eog vocab tok); [exact H0 |].
  destruct (fst (llama_decode (str_ctx st0) [tok]) =? 0);
    cbv beta iota zeta; [| exact Hd].
  apply IH. exact Hd.
Qed.

(** X15.  Whatever bytes the backend produces for its tokens, every
    response returned by [nativeGenerate] and [nativeGenerateWithCache]
    and every text handed to [onToken] by [nativeGenerateStreaming] has
    the structure the sanitising pass lets through: no stray
    continuation byte, no lead byte without all its continuation
    bytes. *)
Theorem replies_accepted_utf8 (s : Session) (maxTokens : Z)
    (temperature : jfloat) :
  (forall prompt r,
      snd (nativeGenerate s prompt maxTokens temperature) = ResponseReturn r ->
      accepted_utf8 r)
  /\ (forall systemPrompt userMessage r,
        snd (nativeGenerateWithCache s systemPrompt userMessage maxTokens
                                     temperature) = ResponseReturn r ->
        accepted_utf8 r)
  /\ (forall prompt callback text,
        In (OnToken text)
           (snd (nativeGenerateStreaming s prompt maxTokens temperature
                                         callback)) ->
        accepted_utf8 text).
Proof.
  assert (Hresp : forall s0 ctx r,
             snd (generate_response s0 ctx maxTokens temperature)
             = ResponseReturn r -> accepted_utf8 r).
  { intros s0 ctx r H. unfold generate_response in H. cbn [snd] in H.
    injection H as <-. rewrite sanitize_utf8_suffix.
    apply sanitize_suffix_accepted. }
  split; [| split].
  - intros prompt r. unfold nativeGenerate.
    destruct (loaded_context s) as [ctx |]; [| discriminate].
    destruct prompt as [p |]; [| discriminate].
    destruct (tokenize_text _ _ _ _) as [[n tokens] |]; [| discriminate].
    destruct (fst (ingest_chunks ctx tokens n 0)); [apply Hresp | discriminate].
  - intros systemPrompt userMessage r. unfold nativeGenerateWithCache.
    destruct (loaded_context s) as [ctx |]; [| discriminate].
    destruct systemPrompt as [sysStr |]; [| discriminate].
    destruct userMessage as [userStr |]; [| discriminate].
    destruct (resolve_system_prompt s ctx sysStr) as [s1 msg | s1 ctx1 n];
      [discriminate |].
    destruct (tokenize_text _ _ _ _) as [[m tokens] |]; [| discriminate].
    destruct (fst (ingest_chunks ctx1 tokens m 0));
      [apply Hresp | discriminate].
  - intros prompt callback text. unfold nativeGenerateStreaming.
    assert (Herr : forall msg, In (OnToken text) [OnError msg] -> False).
    { intros msg [H | []]. discriminate H. }
    destruct (loaded_context s) as [ctx |].
    2:{ destruct (has_onError callback); [intro H; destruct (Herr _ H) |].
        intros []. }
    destruct (negb _ || negb _ || negb _); [intros [] |].
    destruct prompt as [p |]; [| intro H; destruct (Herr _ H)].
    destruct (tokenize_text _ _ _ _) as [[n tokens] |];
      [| intro H; destruct (Herr _ H)].
    destruct (fst (ingest_chunks ctx tokens n 0));
      [| intro H; destruct (Herr _ H)].
    unfold stream_tokens. cbn [snd]. intro H.
    apply in_app_or in H. destruct H as [H | [H | []]]; [| discriminate H].
    pose proof (@streaming_loop_accepted (g_vocab s) (Z.to_nat maxTokens)
                  (initial_stream_state s (snd (ingest_chunks ctx tokens n 0))
                                        temperature)
                  (Forall_nil _)) as Hall.
    rewrite Forall_forall in Hall. exact (Hall _ H).
Qed.

(** The two loops run in step: same tokens drawn, same decodes. *)
Lemma loops_lockstep (vocab : option llama_vocab) (n : nat)
    (gst : GenState) (sst : StreamState) :
  gen_smpl gst = str_smpl sst -> gen_ctx gst = str_ctx sst ->
  exists toks : list llama_token,
    response (generation_loop n vocab gst)
    = fold_left (append_piece vocab) toks (response gst)
    /\ delivered (streaming_loop n vocab sst)
       = fold_left (deliver_piece vocab) toks (delivered sst)
    /\ gen_ctx (generation_loop n vocab gst)
       = str_ctx (streaming_loop n vocab sst).
Proof.
  revert gst sst. induction n as [| n IH]; intros gst sst Hs Hc.
  { exists []. auto. }
  unfold generation_loop, streaming_loop. cbn [for_loop].
  rewrite (generation_step_cases vocab gst), (streaming_step_cases vocab sst).
  cbv zeta. rewrite <- Hs, <- Hc.
  set (tok := fst (llama_sampler_sample (gen_smpl gst) (gen_ctx gst))).
  destruct (llama_vocab_is_eog vocab tok).
  { exists []. auto. }
  destruct (fst (llama_decode (gen_ctx gst) [tok]) =? 0);
    cbv beta iota zeta.
  - match goal with
    | |- context [for_loop (generation_step vocab) n ?g] =>
        match goal with
        | |- context [for_loop (streaming_step vocab) n ?t] =>
            destruct (IH g t eq_refl eq_refl) as [toks [Hr [Hd Hx]]]
        end
    end.
    unfold generation_loop, streaming_loop in Hr, Hd, Hx.
    exists (tok :: toks). rewrite Hr, Hd, Hx. auto.
  - exists [tok]. auto.
Qed.

(** With complete pieces, the token deliveries are the pieces and the
    response is the pieces put end to end. *)
Lemma pieces_delivered (vocab : option llama_vocab)
    (toks : list llama_token) (events : list CallbackEvent) (resp : bytes) :
  (forall tok, accepted_utf8 (token_piece vocab tok)) ->
  accepted_utf8 resp ->
  exists texts : list bytes,
    fold_left (deliver_piece vocab) toks events = events ++ map OnToken texts
    /\ fold_left (append_piece vocab) toks resp = resp ++ concat texts
    /\ accepted_utf8 (resp ++ concat texts).
Proof.
  intro Hvalid. revert events resp.
  induction toks as [| tok toks IH]; intros events resp Hresp.
  { exists []. cbn. rewrite !app_nil_r. auto. }
  cbn [fold_left]. unfold deliver_piece at 2, append_piece at 2.
  fold (token_piece vocab tok).
  destruct (0 <? fst (llama_token_to_piece vocab tok)).
  - rewrite (sanitize_utf8_accepted_id (Hvalid tok)).
    destruct (IH (events ++ [OnToken (token_piece vocab tok)])
                 (resp ++ token_piece vocab tok)
                 (accepted_utf8_app Hresp (Hvalid tok)))
      as [texts [Hd [Hr Ha]]].
    exists (token_piece vocab tok :: texts).
    rewrite Hd, Hr. cbn [map concat].
    rewrite <- !app_assoc in *. auto.
  - destruct (IH events resp Hresp) as [texts H]. exists texts. exact H.
Qed.

(** X16.  When every token's piece is a complete byte sequence of that
    structure (no character split across tokens), the streaming and the
    plain blocking entry point are the same computation on the same
    session and prompt: they leave the same session, the texts streamed
    to [onToken], put end to end, are the blocking response, and an
    error reply "Error: m" of the one is the single [onError] "m" of the
    other. *)
Theorem streaming_agrees_with_blocking (s : Session) (prompt : jstring)
    (maxTokens : Z) (temperature : jfloat) (callback : StreamCallback) :
  has_onToken callback = true ->
  has_onComplete callback = true ->
  has_onError callback = true ->
  (forall tok, accepted_utf8 (token_piece (g_vocab s) tok)) ->
  let blocking := nativeGenerate s prompt maxTokens temperature in
  let streaming :=
    nativeGenerateStreaming s prompt maxTokens temperature callback in
  fst streaming = fst blocking
  /\ match snd blocking with
     | ResponseReturn r =>
         exists texts : list bytes,
           snd streaming = map OnToken texts ++ [OnComplete]
           /\ concat texts = r
     | ErrorReturn msg =>
         exists m : string,
           snd streaming = [OnError m] /\ msg = ("Error: " ++ m)%string
     end.
Proof.
  intros Ht Hcm He Hvalid. cbv zeta.
  unfold nativeGenerate, nativeGenerateStreaming.
  rewrite Ht, Hcm, He. cbn [negb orb].
  destruct (loaded_context s) as [ctx |].
  2:{ split; [reflexivity |]. eexists. split; reflexivity. }
  destruct prompt as [p |].
  2:{ split; [reflexivity |]. eexists. split; reflexivity. }
  destruct (tokenize_text _ _ _ _) as [[n tokens] |].
  2:{ split; [reflexivity |]. eexists. split; reflexivity. }
  destruct (fst (ingest_chunks ctx tokens n 0)).
  2:{ split; [reflexivity |]. eexists. split; reflexivity. }
  unfold generate_response, stream_tokens.
  destruct (@loops_lockstep (g_vocab s) (Z.to_nat maxTokens)
              (initial_gen_state s (snd (ingest_chunks ctx tokens n 0))
                                 temperature)
              (initial_stream_state s (snd (ingest_chunks ctx tokens n 0))
                                    temperature) eq_refl eq_refl)
    as [toks [Hr [Hd Hx]]].
  cbn [initial_gen_state initial_stream_state response delivered] in Hr, Hd.
  destruct (@pieces_delivered (g_vocab s) toks [] [] Hvalid accepted_nil)
    as [texts [Hd' [Hr' Ha]]].
  cbn [app] in Hd', Hr', Ha.
  cbn [fst snd]. rewrite Hx. split; [reflexivity |].
  exists texts. rewrite Hd, Hd', Hr, Hr'.
  split; [reflexivity |]. symmetry. now apply sanitize_utf8_accepted_id.
Qed.

End MoreEngineProperties.

(** ** The placeholder wrapper *)

(** X17.  The placeholder wrapper's [nativeGenerate] returns the empty
    string exactly when the wrapper is not initialised; once
    [nativeInit] has run it returns the placeholder line followed by
    "Prompt: " and the prompt, whatever the token budget; after
    [nativeRelease] it returns the empty string again, and releasing
    twice is releasing once. *)
Theorem wrapper_lifecycle (g : LlamaWrapper.State) (path prompt : string)
    (n_threads n_ctx max_tokens : Z) (temperature : jfloat) :
  let ready :=
    fst (LlamaWrapper.nativeInit g path n_threads n_ctx temperature) in
  (LlamaWrapper.nativeGenerate g prompt max_tokens = EmptyString <->
   match g with
   | Some c => LlamaWrapper.initialized c = false
   | None => True
   end)
  /\ LlamaWrapper.nativeGenerate ready prompt max_tokens
     = (LlamaWrapper.placeholder ++ "Prompt: " ++ prompt)%string
  /\ LlamaWrapper.nativeGenerate (LlamaWrapper.nativeRelease ready) prompt
                                 max_tokens = EmptyString
  /\ LlamaWrapper.nativeRelease (LlamaWrapper.nativeRelease g)
     = LlamaWrapper.nativeRelease g.
Proof.
  cbv zeta. split; [| repeat split].
  unfold LlamaWrapper.nativeGenerate.
  destruct g as [c |]; [| tauto].
  destruct (LlamaWrapper.initialized c).
  - split; discriminate.
  - tauto.
Qed.

(** ** The further statements at work *)

Lemma toy_cached_coherent : prefix_cache_coherent Toy.cached.
Proof.
  intros _. exists (Toy.context_of Toy.cached).
  repeat split; vm_compute; reflexivity.
Qed.

(** From the initial state, loading the large model. *)
Lemma handles_consistent_kept_witness : handles_consistent Toy.loaded.
Proof.
  assert (H0 : @handles_consistent Toy.backend initial_session).
  { unfold handles_consistent. cbn. auto. }
  destruct (@handles_consistent_kept Toy.backend initial_session H0)
    as [Hload _].
  exact (Hload (Some "model.gguf"%string) 2 2048 (7 # 10) 3 (9 # 10)
               (5 # 100)).
Defined.

(** A second load, of a file the backend cannot parse, on top of a loaded
    model. *)
Lemma nativeLoadModel_failure_witness :
  let after := fst (Toy.load Toy.loaded "missing.gguf") in
  g_initialized after = false /\ g_context after = None.
Proof.
  assert (H : @handles_consistent Toy.backend Toy.loaded).
  { unfold handles_consistent.
    replace (g_initialized Toy.loaded) with true by (vm_compute; reflexivity).
    repeat split; vm_compute; discriminate. }
  destruct (@nativeLoadModel_failure Toy.backend Toy.loaded
              (Some "missing.gguf"%string) 2 2048 (7 # 10) 3 (9 # 10)
              (5 # 100) H)
    as [Hi [_ [Hc _]]]; [vm_compute; reflexivity |].
  split; [exact Hi | exact Hc].
Defined.

Lemma ingest_chunks_appends_witness :
  kv_cells (snd (@ingest_chunks Toy.backend (Toy.context_of Toy.cached)
                   [1; 0x48; 0x69] 3 0))
  = kv_cells (Toy.context_of Toy.cached) ++ [1; 0x48; 0x69].
Proof.
  destruct (@ingest_chunks_appends Toy.backend (Toy.context_of Toy.cached)
              [1; 0x48; 0x69] 3 eq_refl) as [H _].
  apply H. vm_compute. reflexivity.
Defined.

(** The second cached turn on [Toy.cached]: a hit that leaves the 67
    cached tokens. *)
Lemma cache_hit_keeps_exactly_prefix_witness :
  exists ctx1 : llama_context nat,
    kv_cells ctx1 = g_cached_system_tokens Toy.cached
    /\ Z.of_nat (List.length (kv_cells ctx1)) = 67.
Proof.
  assert (Hl : @loaded_context Toy.backend Toy.cached
               = Some (Toy.context_of Toy.cached))
    by (vm_compute; reflexivity).
  destruct (@cache_hit_keeps_exactly_prefix Toy.backend Toy.cached
              (Toy.context_of Toy.cached) "You are a calculator." "3+3="
              5 0%Q toy_cached_coherent Hl)
    as [ctx1 [_ [Hkv [Hlen _]]]]; [vm_compute; reflexivity |].
  exists ctx1. split; [exact Hkv |].
  etransitivity; [exact Hlen | vm_compute; reflexivity].
Defined.

Lemma completed_turn_then_hit_witness :
  cache_hit Toy.cached "You are a calculator." = true.
Proof.
  destruct (@completed_turn_then_hit Toy.backend Toy.loaded
              "You are a calculator." (Some "2+2="%string) 5 0%Q
              [0x63; 0x62; 0x61]) as [H _];
    [vm_compute; reflexivity | exact H].
Defined.

(** After the reload that broke the invariant, a turn with another
    system prompt puts it back. *)
Lemma miss_restores_coherence_witness :
  prefix_cache_coherent
    (fst (@nativeGenerateWithCache Toy.backend Toy.reloaded
            (Some "You are helpful"%string) (Some "hi"%string) 5 0%Q)).
Proof.
  assert (Hl : @loaded_context Toy.backend Toy.reloaded
               = Some (Toy.context_of Toy.reloaded))
    by (vm_compute; reflexivity).
  apply (@miss_restores_coherence Toy.backend Toy.reloaded
           (Toy.context_of Toy.reloaded) "You are helpful" "hi" 5 0%Q Hl).
  - vm_compute. reflexivity.
  - assert (Hready :
              match @resolve_system_prompt Toy.backend Toy.reloaded
                      (Toy.context_of Toy.reloaded) "You are helpful" with
              | PrefixReady _ _ _ => true
              | PrefixFailed _ _ => false
              end = true) by (vm_compute; reflexivity).
    intros s1 msg H. rewrite H in Hready. discriminate Hready.
Defined.

Lemma nativeGenerate_coherent_witness :
  prefix_cache_coherent
    (fst (@nativeGenerate Toy.backend Toy.cached (Some "Hi"%string) 5
            (7 # 10))).
Proof.
  exact (@nativeGenerate_coherent Toy.backend Toy.cached (Some "Hi"%string)
           5 (7 # 10) toy_cached_coherent).
Defined.

Lemma nativeGenerateStreaming_coherent_witness :
  prefix_cache_coherent
    (fst (@nativeGenerateStreaming Toy.backend Toy.cached
            (Some "Hi"%string) 5 (7 # 10) Toy.full_callback)).
Proof.
  exact (@nativeGenerateStreaming_coherent Toy.backend Toy.cached
           (Some "Hi"%string) 5 (7 # 10) Toy.full_callback
           toy_cached_coherent).
Defined.

Lemma nativeGenerateWithCache_coherent_witness :
  prefix_cache_coherent
    (fst (@nativeGenerateWithCache Toy.backend Toy.cached
            (Some "You are a calculator."%string) (Some "3+3="%string)
            5 0%Q)).
Proof.
  apply (@nativeGenerateWithCache_coherent Toy.backend Toy.cached
           (Some "You are a calculator."%string) (Some "3+3="%string)
           5 0%Q toy_cached_coherent).
  intros ctx sysStr s1 msg Hl Hs.
  assert (Hl' : @loaded_context Toy.backend Toy.cached
                = Some (Toy.context_of Toy.cached))
    by (vm_compute; reflexivity).
  rewrite Hl' in Hl.
  assert (Hc : Toy.context_of Toy.cached = ctx).
  { exact (f_equal (fun o => match o with
                             | Some c => c
                             | None => ctx
                             end) Hl). }
  subst ctx. injection Hs as <-.
  assert (Hready :
            match @resolve_system_prompt Toy.backend Toy.cached
                    (Toy.context_of Toy.cached) "You are a calculator." with
            | PrefixReady _ _ _ => true
            | PrefixFailed _ _ => false
            end = true) by (vm_compute; reflexivity).
  intro H. rewrite H in Hready. discriminate Hready.
Defined.

(** On the backend with one-byte pieces: "cba" streamed letter by letter
    and returned whole. *)
Lemma streaming_agrees_with_blocking_witness :
  fst (@nativeGenerateStreaming Toy.ascii_backend Toy.loaded_ascii
         (Some "Hi"%string) 5 (7 # 10) Toy.full_callback)
  = fst (@nativeGenerate Toy.ascii_backend Toy.loaded_ascii
           (Some "Hi"%string) 5 (7 # 10)).
Proof.
  assert (Hvalid : forall tok,
             accepted_utf8
               (@token_piece Toy.ascii_backend (g_vocab Toy.loaded_ascii)
                             tok)).
  { intro tok. unfold token_piece. cbn.
    apply accepted_1; [| constructor].
    pose proof (Z.mod_pos_bound tok 128 ltac:(lia)). lia. }
  exact (proj1 (@streaming_agrees_with_blocking Toy.ascii_backend
                  Toy.loaded_ascii (Some "Hi"%string) 5 (7 # 10)
                  Toy.full_callback eq_refl eq_refl eq_refl Hvalid)).
Defined.

(** * Streaming against blocking, failed misses, empty budgets *)

Section FurtherEngineProperties.

Context {BE : Backend}.

(** The pieces both loops see for a run of sampled tokens: the blocking
    one appends them raw, the streaming one hands each over sanitised on
    its own. *)
Lemma pieces_folded (vocab : option llama_vocab) (toks : list llama_token)
    (events : list CallbackEvent) (resp : bytes) :
  exists pieces : list bytes,
    Forall (fun p => exists tok, p = token_piece vocab tok) pieces
    /\ fold_left (append_piece vocab) toks resp = resp ++ concat pieces
    /\ fold_left (deliver_piece vocab) toks events
       = events ++ map (fun p => OnToken (sanitize_utf8 p)) pieces.
Proof.
  revert events resp. induction toks as [| tok toks IH]; intros events resp.
  { exists []. cbn. rewrite !app_nil_r. auto. }
  cbn [fold_left]. unfold deliver_piece at 2, append_piece at 2.
  fold (token_piece vocab tok).
  destruct (0 <? fst (llama_token_to_piece vocab tok)).
  - destruct (IH (events ++ [OnToken (sanitize_utf8 (token_piece vocab tok))])
                 (resp ++ token_piece vocab tok))
      as [pieces [Hp [Hr Hd]]].
    exists (token_piece vocab tok :: pieces).
    rewrite Hr, Hd. cbn [map concat]. rewrite <- !app_assoc.
    split; [constructor; [eexists; reflexivity | exact Hp] | auto].
  - apply IH.
Qed.

Lemma entry_points_pieces (s : Session) (ctx : context) (maxTokens : Z)
    (temperature : jfloat) :
  exists pieces : list bytes,
    Forall (fun p => exists tok, p = token_piece (g_vocab s) tok) pieces
    /\ snd (generate_response s ctx maxTokens temperature)
       = ResponseReturn (sanitize_utf8 (concat pieces))
    /\ snd (stream_tokens s ctx maxTokens temperature)
       = map (fun p => OnToken (sanitize_utf8 p)) pieces ++ [OnComplete].
Proof.
  destruct (@loops_lockstep BE (g_vocab s) (Z.to_nat maxTokens)
              (initial_gen_state s ctx temperature)
              (initial_stream_state s ctx temperature) eq_refl eq_refl)
    as [toks [Hr [Hd _]]].
  cbn [initial_gen_state initial_stream_state response delivered] in Hr, Hd.
  destruct (pieces_folded (g_vocab s) toks [] []) as [pieces [Hp [Hr' Hd']]].
  cbn [app] in Hr', Hd'.
  exists pieces. split; [exact Hp |].
  unfold generate_response, stream_tokens. cbn [snd].
  rewrite Hr, Hr', Hd, Hd'. split; reflexivity.
Qed.

(** X21.  Whatever the vocabulary, when the blocking call returns a
    response the streaming call on the same session and prompt hands
    over, token by token, the pieces of the same sampled tokens, each
    sanitised on its own, and then completes; the blocking response is
    the sanitised whole.  So a character whose bytes come from more than
    one token can be in the blocking response and cannot be in a
    streamed text. *)
Theorem streaming_sanitises_piecewise (s : Session) (prompt : jstring)
    (maxTokens : Z) (temperature : jfloat) (callback : StreamCallback)
    (r : bytes) :
  has_onToken callback = true ->
  has_onComplete callback = true ->
  has_onError callback = true ->
  snd (nativeGenerate s prompt maxTokens temperature) = ResponseReturn r ->
  exists pieces : list bytes,
    Forall (fun p => exists tok, p = token_piece (g_vocab s) tok) pieces
    /\ r = sanitize_utf8 (concat pieces)
    /\ snd (nativeGenerateStreaming s prompt maxTokens temperature callback)
       = map (fun p => OnToken (sanitize_utf8 p)) pieces ++ [OnComplete].
Proof.
  intros Ht Hcm He. unfold nativeGenerate, nativeGenerateStreaming.
  rewrite Ht, Hcm, He. cbn [negb orb].
  destruct (loaded_context s) as [ctx |]; [| discriminate].
  destruct prompt as [p |]; [| discriminate].
  destruct (tokenize_text _ _ _ _) as [[n tokens] |]; [| discriminate].
  destruct (fst (ingest_chunks ctx tokens n 0)); [| discriminate].
  destruct (entry_points_pieces s (snd (ingest_chunks ctx tokens n 0))
              maxTokens temperature) as [pieces [Hp [Hr Hd]]].
  rewrite Hr, Hd. intro H. injection H as <-.
  exists pieces. auto.
Qed.

Lemma sanitize_utf8_short (p : bytes) :
  (List.length p <= 1)%nat ->
  sanitize_utf8 p = [] \/ exists b, sanitize_utf8 p = [b] /\ b <= 0x7F.
Proof.
  intro Hlen. rewrite sanitize_utf8_suffix.
  destruct p as [| c [| c' p]]; [left; reflexivity | | simpl in Hlen; lia].
  rewrite sanitize_suffix_cons.
  destruct (c <=? 0x7F) eqn:E; [| left; reflexivity].
  right. exists c. split; [reflexivity | now apply Z.leb_le].
Qed.

(** X22.  With a vocabulary whose pieces are single bytes (byte-level
    tokens), every text the streaming call hands to [onToken] is empty
    or one byte up to 0x7F: no byte of a multi-byte character is ever
    streamed. *)
Theorem one_byte_pieces_stream_ascii_only (s : Session) (prompt : jstring)
    (maxTokens : Z) (temperature : jfloat) (callback : StreamCallback)
    (text : bytes) :
  (forall tok, fst (llama_token_to_piece (g_vocab s) tok) <= 1) ->
  In (OnToken text)
     (snd (nativeGenerateStreaming s prompt maxTokens temperature callback)) ->
  text = [] \/ exists b, text = [b] /\ b <= 0x7F.
Proof.
  intros Hone. unfold nativeGenerateStreaming.
  assert (Herr : forall msg, In (OnToken text) [OnError msg] -> False).
  { intros msg [H | []]. discriminate H. }
  destruct (loaded_context s) as [ctx |].
  2:{ destruct (has_onError callback); [intro H; destruct (Herr _ H) |].
      intros []. }
  destruct (negb _ || negb _ || negb _); [intros [] |].
  destruct prompt as [p |]; [| intro H; destruct (Herr _ H)].
  destruct (tokenize_text _ _ _ _) as [[n tokens] |];
    [| intro H; destruct (Herr _ H)].
  destruct (fst (ingest_chunks ctx tokens n 0));
    [| intro H; destruct (Herr _ H)].
  destruct (entry_points_pieces s (snd (ingest_chunks ctx tokens n 0))
              maxTokens temperature) as [pieces [Hp [_ Hd]]].
  rewrite Hd. intro H.
  apply in_app_or in H. destruct H as [H | [H | []]]; [| discriminate H].
  apply in_map_iff in H. destruct H as [piece [Heq Hin]].
  injection Heq as <-.
  rewrite Forall_forall in Hp. destruct (Hp _ Hin) as [tok ->].
  destruct (@sanitize_utf8_short (token_piece (g_vocab s) tok)) as [H | H].
  - unfold token_piece. rewrite length_firstn.
    specialize (Hone tok). lia.
  - left. exact H.
  - right. exact H.
Qed.

(** X23.  A miss that returns early with a system-prompt error has
    cleared the decode state and left the record alone: what was
    resident is gone, at most a leading part of the new system prompt's
    tokens is resident, and the record still names the previous system
    prompt, which the next call therefore hits. *)
Theorem failed_miss_leaves_stale_record (s : Session) (ctx : context)
    (sysStr userStr : string) (maxTokens : Z) (temperature : jfloat)
    (msg : string) :
  loaded_context s = Some ctx ->
  cache_hit s sysStr = false ->
  let r := nativeGenerateWithCache s (Some sysStr) (Some userStr) maxTokens
                                   temperature in
  snd r = ErrorReturn msg ->
  msg = "Error: System prompt tokenization failed"%string
  \/ msg = "Error: System prompt processing failed"%string ->
  cache_record (fst r) = cache_record s
  /\ (exists ctx',
        g_context (fst r) = Some ctx'
        /\ match tokenize_text (g_vocab s) (format_system_prompt sysStr)
                               true true with
           | None => kv_cells ctx' = []
           | Some (_, sys_tokens) =>
               exists k, kv_cells ctx' = firstn k sys_tokens
           end)
  /\ (0 < g_cached_system_length s ->
      cache_hit (fst r) (g_cached_system_prompt s) = true).
Proof.
  intros Hl Hmiss r. subst r. unfold nativeGenerateWithCache.
  rewrite Hl. unfold resolve_system_prompt. rewrite Hmiss.
  unfold process_system_prompt.
  assert (Hhit : forall s', cache_record s' = cache_record s ->
                            0 < g_cached_system_length s ->
                            cache_hit s' (g_cached_system_prompt s) = true).
  { intros s' Hrec Hpos. unfold cache_record in Hrec.
    injection Hrec as H1 _ H3. unfold cache_hit.
    rewrite H1, H3, String.eqb_refl. now apply Z.ltb_lt. }
  destruct (tokenize_text (g_vocab s) (format_system_prompt sysStr) true true)
    as [[n toks] |] eqn:Htok.
  2:{ cbn [fst snd]. intros _ _. split; [reflexivity |].
      split; [| apply Hhit; reflexivity].
      eexists. split; reflexivity. }
  destruct (tokenize_text_length _ _ _ _ Htok) as [_ Hlen].
  destruct (@ingest_chunks_cells BE (llama_memory_clear ctx) toks n 0
              ltac:(lia) (eq_sym Hlen)) as [_ [k Hk]].
  cbn [Z.to_nat skipn llama_memory_clear kv_cells app] in Hk.
  destruct (fst (ingest_chunks (llama_memory_clear ctx) toks n 0)).
  - intros Hreply Hmsg. exfalso.
    destruct (tokenize_text (g_vocab _) (format_user_prompt userStr)
                            false false) as [[m utoks] |].
    + destruct (fst (ingest_chunks _ utoks m 0)).
      * unfold generate_response in Hreply. discriminate Hreply.
      * cbn [snd] in Hreply. injection Hreply as <-.
        destruct Hmsg as [H | H]; discriminate H.
    + cbn [snd] in Hreply. injection Hreply as <-.
      destruct Hmsg as [H | H]; discriminate H.
  - cbn [fst snd]. intros _ _. split; [reflexivity |].
    split; [| apply Hhit; reflexivity].
    eexists. split; [reflexivity |]. exists k. exact Hk.
Qed.

(** X24.  With a token budget of zero or less nothing is sampled, yet
    the prompt is ingested: [nativeGenerate] returns the empty response,
    [nativeGenerateStreaming] makes the one callback [onComplete], and
    both leave the prompt's tokens resident after those that were
    resident before. *)
Theorem empty_budget_ingests_prompt (s : Session) (ctx : context)
    (p : string) (n_tokens : Z) (tokens : list llama_token)
    (maxTokens : Z) (temperature : jfloat) (callback : StreamCallback) :
  maxTokens <= 0 ->
  loaded_context s = Some ctx ->
  tokenize_text (g_vocab s) p true true = Some (n_tokens, tokens) ->
  fst (ingest_chunks ctx tokens n_tokens 0) = true ->
  has_onToken callback = true ->
  has_onComplete callback = true ->
  has_onError callback = true ->
  let ctx' := snd (ingest_chunks ctx tokens n_tokens 0) in
  nativeGenerate s (Some p) maxTokens temperature
  = (set_context s ctx', ResponseReturn [])
  /\ nativeGenerateStreaming s (Some p) maxTokens temperature callback
     = (set_context s ctx', [OnComplete])
  /\ kv_cells ctx' = kv_cells ctx ++ tokens.
Proof.
  intros Hmax Hl Htok Hing Ht Hcm He. cbv zeta.
  unfold nativeGenerate, nativeGenerateStreaming.
  rewrite Hl, Htok, Hing, Ht, Hcm, He. cbn [negb orb].
  unfold generate_response, stream_tokens, generation_loop, streaming_loop.
  replace (Z.to_nat maxTokens) with 0%nat by lia.
  cbn [for_loop initial_gen_state initial_stream_state gen_ctx str_ctx
       response delivered app].
  split; [| split; [reflexivity |]].
  - rewrite sanitize_utf8_suffix. reflexivity.
  - destruct (tokenize_text_length _ _ _ _ Htok) as [_ Hlen].
    destruct (@ingest_chunks_cells BE ctx tokens n_tokens 0 ltac:(lia)
                (eq_sym Hlen)) as [Hok _].
    exact (Hok Hing).
Qed.

End FurtherEngineProperties.

(** ** More statements at work *)

(** A two-byte sequence drawn as two tokens: the blocking call returns
    both bytes, the streaming call hands over two empty texts. *)
Lemma split_character_streamed_empty :
  snd (@nativeGenerate Toy.backend Toy.loaded_wide (Some "Hi"%string) 2
         (7 # 10))
  = ResponseReturn [0xC0; 0xBF]
  /\ snd (@nativeGenerateStreaming Toy.backend Toy.loaded_wide
            (Some "Hi"%string) 2 (7 # 10) Toy.full_callback)
     = [OnToken []; OnToken []; OnComplete].
Proof. split; vm_compute; reflexivity. Qed.

Lemma streaming_sanitises_piecewise_witness :
  exists pieces : list bytes,
    Forall (fun p => exists tok,
                p = @token_piece Toy.backend (g_vocab Toy.loaded_wide) tok)
           pieces
    /\ [0xC0; 0xBF] = sanitize_utf8 (concat pieces)
    /\ snd (@nativeGenerateStreaming Toy.backend Toy.loaded_wide
              (Some "Hi"%string) 2 (7 # 10) Toy.full_callback)
       = map (fun p => OnToken (sanitize_utf8 p)) pieces ++ [OnComplete].
Proof.
  assert (H : snd (@nativeGenerate Toy.backend Toy.loaded_wide
                     (Some "Hi"%string) 2 (7 # 10))
              = ResponseReturn [0xC0; 0xBF]) by (vm_compute; reflexivity).
  exact (@streaming_sanitises_piecewise Toy.backend Toy.loaded_wide
           (Some "Hi"%string) 2 (7 # 10) Toy.full_callback [0xC0; 0xBF]
           eq_refl eq_refl eq_refl H).
Defined.

Lemma one_byte_pieces_stream_ascii_only_witness :
  [0x63] = [] \/ exists b, [0x63] = [b] /\ b <= 0x7F.
Proof.
  assert (Hin : In (OnToken [0x63])
                   (snd (@nativeGenerateStreaming Toy.backend Toy.loaded
                           (Some "Hi"%string) 5 (7 # 10)
                           Toy.full_callback))).
  { replace (snd (@nativeGenerateStreaming Toy.backend Toy.loaded
                    (Some "Hi"%string) 5 (7 # 10) Toy.full_callback))
      with [OnToken [0x63]; OnToken [0x62]; OnToken [0x61]; OnComplete]
      by (vm_compute; reflexivity).
    left. reflexivity. }
  assert (Hone : forall tok,
             fst (@llama_token_to_piece Toy.backend (g_vocab Toy.loaded) tok)
             <= 1).
  { intro tok. cbn. lia. }
  exact (@one_byte_pieces_stream_ascii_only Toy.backend Toy.loaded
           (Some "Hi"%string) 5 (7 # 10) Toy.full_callback [0x63] Hone Hin).
Defined.

(** The cached turn with the prompt that does not fit the medium
    context. *)
Lemma failed_miss_leaves_stale_record_witness :
  cache_record Toy.overflowed = cache_record Toy.cached_medium
  /\ cache_hit Toy.overflowed (g_cached_system_prompt Toy.cached_medium)
     = true.
Proof.
  assert (Hl : @loaded_context Toy.backend Toy.cached_medium
               = Some (Toy.context_of Toy.cached_medium))
    by (vm_compute; reflexivity).
  assert (Hmiss : cache_hit Toy.cached_medium Toy.long_prompt = false)
    by (vm_compute; reflexivity).
  assert (Hreply : snd (@nativeGenerateWithCache Toy.backend
                          Toy.cached_medium (Some Toy.long_prompt)
                          (Some "2+2="%string) 5 0%Q)
                   = ErrorReturn "Error: System prompt processing failed")
    by (vm_compute; reflexivity).
  assert (Hpos : 0 < g_cached_system_length Toy.cached_medium)
    by (vm_compute; reflexivity).
  destruct (@failed_miss_leaves_stale_record Toy.backend Toy.cached_medium
              (Toy.context_of Toy.cached_medium) Toy.long_prompt "2+2=" 5
              0%Q "Error: System prompt processing failed" Hl Hmiss Hreply
              (or_intror eq_refl)) as [Hrec [_ Hhit]].
  split; [exact Hrec | exact (Hhit Hpos)].
Defined.

Lemma empty_budget_ingests_prompt_witness :
  @nativeGenerate Toy.backend Toy.loaded (Some "Hi"%string) 0 (7 # 10)
  = (set_context Toy.loaded
       (snd (@ingest_chunks Toy.backend (Toy.context_of Toy.loaded)
               [1; 0x48; 0x69] 3 0)),
     ResponseReturn []).
Proof.
  assert (Hl : @loaded_context Toy.backend Toy.loaded
               = Some (Toy.context_of Toy.loaded))
    by (vm_compute; reflexivity).
  assert (Htok : @tokenize_text Toy.backend (g_vocab Toy.loaded) "Hi" true
                   true = Some (3, [1; 0x48; 0x69]))
    by (vm_compute; reflexivity).
  assert (Hing : fst (@ingest_chunks Toy.backend (Toy.context_of Toy.loaded)
                        [1; 0x48; 0x69] 3 0) = true)
    by (vm_compute; reflexivity).
  exact (proj1 (@empty_budget_ingests_prompt Toy.backend Toy.loaded
                  (Toy.context_of Toy.loaded) "Hi" 3 [1; 0x48; 0x69] 0
                  (7 # 10) Toy.full_callback ltac:(lia) Hl Htok Hing
                  eq_refl eq_refl eq_refl)).
Defined.

(** Loading the large model into a fresh process. *)
Lemma nativeLoadModel_success_witness :
  exists ctx : llama_context nat,
    @loaded_context Toy.backend Toy.loaded = Some ctx
    /\ kv_cells ctx = []
    /\ n_ctx (cparams ctx) = 4096
    /\ cache_record Toy.loaded = cache_record (@initial_session Toy.backend).
Proof.
  assert (Hok : snd (@nativeLoadModel Toy.backend initial_session
                       (Some "model.gguf"%string) 2 2048 (7 # 10) 3 (9 # 10)
                       (5 # 100)) = true) by (vm_compute; reflexivity).
  destruct (proj2 (@nativeLoadModel_success Toy.backend initial_session
                     "model.gguf" 2 2048 (7 # 10) 3 (9 # 10) (5 # 100)) Hok)
    as [ctx [Hl [Hkv [Hpar [_ [_ Hrec]]]]]].
  exists ctx. split; [exact Hl |]. split; [exact Hkv |].
  split; [exact (f_equal n_ctx Hpar) | exact Hrec].
Defined.

Lemma nativeGetTokenCount_estimate_witness :
  0 < 2
  /\ 2 = neg32 (fst (@llama_tokenize Toy.backend (g_vocab Toy.loaded) "Hi" 0
                       false false)).
Proof.
  assert (Hi : g_initialized Toy.loaded = true) by (vm_compute; reflexivity).
  assert (Hv : g_vocab Toy.loaded <> None) by (vm_compute; discriminate).
  assert (Hn : @nativeGetTokenCount Toy.backend Toy.loaded (Some "Hi"%string)
               = Some 2) by (vm_compute; reflexivity).
  destruct (@nativeGetTokenCount_estimate Toy.backend Toy.loaded "Hi")
    as [_ [_ H]].
  exact (H 2 Hi Hv Hn).
Defined.

(** A prompt of five tokens on the model with four cells. *)
Lemma nativeGenerate_error_replies_witness :
  exists (ctx : llama_context nat) (n_tokens : Z) (tokens : list llama_token),
    @loaded_context Toy.backend Toy.loaded_small = Some ctx
    /\ fst (@ingest_chunks Toy.backend ctx tokens n_tokens 0) = false.
Proof.
  assert (Hreply : snd (@nativeGenerate Toy.backend Toy.loaded_small
                          (Some "abcd"%string) 5 (7 # 10))
                   = ErrorReturn "Error: Prompt processing failed")
    by (vm_compute; reflexivity).
  destruct (proj1 (@nativeGenerate_error_replies Toy.backend Toy.loaded_small
                     (Some "abcd"%string) 5 (7 # 10)) _ Hreply)
    as [[H _] | [[H _] | [[H _] | [_ H]]]]; try discriminate H.
  destruct H as [ctx [p [n_tokens [tokens [Hl [_ [_ [Hing _]]]]]]]].
  exists ctx, n_tokens, tokens. split; [exact Hl | exact Hing].
Defined.

Lemma replies_accepted_utf8_witness : accepted_utf8 [0x63; 0x62; 0x61].
Proof.
  assert (Hreply : snd (@nativeGenerate Toy.backend Toy.loaded
                          (Some "Hi"%string) 5 (7 # 10))
                   = ResponseReturn [0x63; 0x62; 0x61])
    by (vm_compute; reflexivity).
  destruct (@replies_accepted_utf8 Toy.backend Toy.loaded 5 (7 # 10))
    as [H _].
  exact (H (Some "Hi"%string) [0x63; 0x62; 0x61] Hreply).
Defined.

(** A callback object without [onComplete]: no callback, no change. *)
Lemma nativeGenerateStreaming_frame_witness :
  fst (@nativeGenerateStreaming Toy.backend Toy.loaded (Some "Hi"%string) 5
         (7 # 10) Toy.callback_without_onComplete)
  = Toy.loaded.
Proof.
  destruct (@nativeGenerateStreaming_frame Toy.backend Toy.loaded
              (Some "Hi"%string) 5 (7 # 10) Toy.callback_without_onComplete)
    as [_ [_ [H _]]].
  apply H. vm_compute. reflexivity.
Defined.

Lemma nativeFreeModel_then_refused_witness :
  @nativeGenerateStreaming Toy.backend (nativeFreeModel Toy.cached)
    (Some "Hi"%string) 5 (7 # 10) Toy.full_callback
  = (nativeFreeModel Toy.cached, [OnError "Model not loaded"]).
Proof.
  destruct (@nativeFreeModel_then_refused Toy.backend Toy.cached)
    as [_ [_ [_ [_ H]]]].
  exact (H (Some "Hi"%string) 5 (7 # 10) Toy.full_callback eq_refl).
Defined.
